(** * node-sdk-core: configuration resolution and authenticated dispatch

    A shallow embedding of [lib/helper.ts], [lib/base-service.ts] and the
    file-reading helpers of the authentication utilities, together with the
    properties that the design document states about them.

    JavaScript objects are finite maps from property names to values,
    [Map]s are association lists in insertion order, thrown errors and
    rejected promises are explicit outcomes, and calls to collaborators
    (authenticator, transport, logger) are recorded in a trace. *)

From Stdlib Require Import ZArith Ascii String List Lia Bool.
From stdpp Require Import base option list strings pretty gmap fin_maps.

Local Open Scope string_scope.
Local Open Scope Z_scope.
Local Set Warnings "-register-all".

(** ** JavaScript values *)

(** The values the modelled code inspects.  Numbers are restricted to
    integers; a [Buffer] is its byte string; a readable stream carries the
    value of its [path] property ([VUndefined] when it has none); other
    objects whose contents play no role (an authenticator, a cookie jar, a
    built-in method) are handles. *)
Inductive jsval : Type :=
| VUndefined
| VNull
| VBool (b : bool)
| VNum (n : Z)
| VStr (s : string)
| VBuffer (bytes : string)
| VStream (path : jsval)
| VArr (items : list jsval)
| VObj (fields : gmap string jsval)
| VOpaque (handle : nat).

(** An object literal / option bag. *)
Abbreviation object := (gmap string jsval).

(** ToBoolean. *)
Definition truthy (v : jsval) : bool :=
  match v with
  | VUndefined | VNull => false
  | VBool b => b
  | VNum n => negb (n =? 0)
  | VStr s => negb (String.eqb s "")
  | VBuffer _ | VStream _ | VArr _ | VObj _ | VOpaque _ => true
  end.

(** [o[k]] on an object: the own property or [undefined]. *)
Definition prop (o : object) (k : string) : jsval :=
  default VUndefined (o !! k).

(** [v.k] on an arbitrary non-nullish value.  Of the built-in wrappers only
    a stream's [path] is modelled. *)
Definition member (v : jsval) (k : string) : jsval :=
  match v with
  | VObj o => prop o k
  | VStream p => if String.eqb k "path" then p else VUndefined
  | _ => VUndefined
  end.

(** [a || b] and [a && b] on values. *)
Definition js_or (a b : jsval) : jsval := if truthy a then a else b.
Definition js_and (a b : jsval) : jsval := if truthy a then b else a.

(** Errors carry their message. *)
Inductive error : Type :=
| Error (message : string)
| TypeError (message : string).

(** The outcome of a synchronous call. *)
Inductive completion (A : Type) : Type :=
| Return (a : A)
| Throw (e : error).
Arguments Return {A} a.
Arguments Throw {A} e.

(** A settled promise. *)
Inductive promise (A : Type) : Type :=
| Resolved (a : A)
| Rejected (e : error).
Arguments Resolved {A} a.
Arguments Rejected {A} e.

(** Logger calls, by level. *)
Inductive log_entry : Type :=
| LogError (msg : string)
| LogInfo (msg : string)
| LogDebug (msg : string).

(** ** String primitives of the host language *)

Module JsString.

Definition newline : string := String "010"%char EmptyString.

Fixpoint drop (n : nat) (s : string) : string :=
  match n, s with
  | O, _ => s
  | S n', String _ s' => drop n' s'
  | S _, EmptyString => EmptyString
  end.

(** [s.endsWith(suffix)]. *)
Definition endsWith (s suffix : string) : bool :=
  (String.length suffix <=? String.length s)%nat
  && String.eqb (drop (String.length s - String.length suffix) s) suffix.

(** [items.join(sep)] on an array of strings. *)
Fixpoint join (sep : string) (items : list string) : string :=
  match items with
  | [] => ""
  | x :: rest =>
      match rest with
      | [] => x
      | _ :: _ => x +:+ sep +:+ join sep rest
      end
  end.

(** The first occurrence of [pat] in [s], as the text before and after it. *)
Fixpoint find_first (pat s : string) : option (string * string) :=
  if String.prefix pat s then Some ("", drop (String.length pat) s)
  else match s with
       | EmptyString => None
       | String c s' =>
           match find_first pat s' with
           | Some (before, after) => Some (String c before, after)
           | None => None
           end
       end.

(** The replacement text of [String.prototype.replace] for a string
    pattern (no capture groups): [$$] is a dollar sign, [$&] the matched
    text, [$`] the text before the match, [$'] the text after it; any
    other character, a lone dollar sign included, stands for itself. *)
Fixpoint GetSubstitution (matched before after replacement : string) : string :=
  match replacement with
  | EmptyString => EmptyString
  | String c rest =>
      if Ascii.eqb c "$" then
        match rest with
        | EmptyString => String c EmptyString
        | String d rest' =>
            if Ascii.eqb d "$" then
              String "$" (GetSubstitution matched before after rest')
            else if Ascii.eqb d "&" then
              matched +:+ GetSubstitution matched before after rest'
            else if Ascii.eqb d "`" then
              before +:+ GetSubstitution matched before after rest'
            else if Ascii.eqb d "'" then
              after +:+ GetSubstitution matched before after rest'
            else String c (GetSubstitution matched before after rest)
        end
      else String c (GetSubstitution matched before after rest)
  end.

(** [s.replace(pat, replacement)] with a string pattern: only the first
    occurrence is replaced. *)
Definition replace (s pat replacement : string) : string :=
  match find_first pat s with
  | Some (before, after) =>
      before +:+ GetSubstitution pat before after replacement +:+ after
  | None => s
  end.

(** Insertion of a string into a list sorted by code units, and
    [Array.prototype.sort] with the default comparison. *)
Fixpoint insert_sorted (x : string) (l : list string) : list string :=
  match l with
  | [] => [x]
  | y :: rest => if String.leb x y then x :: l else y :: insert_sorted x rest
  end.

Definition sort (l : list string) : list string :=
  fold_right insert_sorted [] l.

End JsString.

(** ** lib/helper.ts *)

Module Helper.

(** The canonical multipart file descriptor [{ value, options }]. *)
Record FileOptions : Type := {
  filename : jsval;
  contentType : jsval
}.

Record FileObject : Type := {
  value : jsval;
  options : FileOptions
}.

(** The file parameter [{ data, filename, contentType }] of an operation. *)
Record FileWithMetadata : Type := {
  data : jsval;
  fm_filename : jsval;
  fm_contentType : jsval
}.

(** [isReadable] of the isstream package and [Buffer.isBuffer]. *)
Definition isReadable (obj : jsval) : bool :=
  match obj with VStream _ => true | _ => false end.

Definition isBuffer (obj : jsval) : bool :=
  match obj with VBuffer _ => true | _ => false end.

Definition isFileObject (obj : jsval) : bool :=
  truthy (js_and obj (member obj "value")).

Definition isFileStream (obj : jsval) : bool :=
  truthy obj && isReadable obj && truthy (member obj "path").

Definition isFileData (obj : jsval) : bool :=
  truthy obj && (isReadable obj || isBuffer obj).

Definition isEmptyObject (obj : jsval) : bool :=
  match obj with
  | VObj o => bool_decide (dom o = ∅)
  | _ => false
  end.

(** [v.toString()]; an array joins its elements with commas, writing
    nothing for [null] and [undefined] elements. *)
Fixpoint toString (v : jsval) : string :=
  match v with
  | VUndefined => "undefined"
  | VNull => "null"
  | VBool b => if b then "true" else "false"
  | VNum n => pretty n
  | VStr s => s
  | VBuffer b => b
  | VArr items =>
      JsString.join ","
        (map (fun x => match x with
                       | VUndefined | VNull => ""
                       | _ => toString x
                       end) items)
  | VStream _ | VObj _ | VOpaque _ => "[object Object]"
  end.

(** [url.replace(/\/$/, '')]: the pattern matches a single slash at the very
    end of the string. *)
Fixpoint stripTrailingSlash (url : string) : string :=
  match url with
  | EmptyString => EmptyString
  | String c rest =>
      match rest with
      | EmptyString => if Ascii.eqb c "/" then EmptyString else url
      | String _ _ => String c (stripTrailingSlash rest)
      end
  end.

(** The members that every object literal inherits from
    [Object.prototype]. *)
Definition Object_prototype : list string :=
  ["constructor"; "hasOwnProperty"; "isPrototypeOf"; "propertyIsEnumerable";
   "toLocaleString"; "toString"; "valueOf"; "__proto__";
   "__defineGetter__"; "__defineSetter__"; "__lookupGetter__"; "__lookupSetter__"].

(** [params[key]] on a parameter object kept in property order: the own
    property, else an inherited member, else [undefined]. *)
Definition param (params : list (string * jsval)) (key : string) : jsval :=
  match List.find (fun kv => String.eqb (fst kv) key) params with
  | Some kv => snd kv
  | None => if existsb (String.eqb key) Object_prototype then VOpaque 0 else VUndefined
  end.

Definition isMissing (v : jsval) : bool :=
  match v with
  | VUndefined => true
  | VNull => true
  | VStr s => String.eqb s ""
  | _ => false
  end.

(** [requires.forEach(require => { if (isMissing(params[require])) missing.push(require) })]. *)
Definition collect_missing (params : list (string * jsval))
    (requires missing : list string) : list string :=
  fold_left
    (fun missing require =>
       if isMissing (param params require) then (missing ++ [require])%list else missing)
    requires missing.

(** [Object.keys(params).forEach(key => { if (!allParams.includes(key)) invalid.push(key) })]. *)
Definition collect_invalid (params : list (string * jsval))
    (allParams invalid : list string) : list string :=
  fold_left
    (fun invalid key =>
       if negb (existsb (String.eqb key) allParams) then (invalid ++ [key])%list else invalid)
    (map fst params) invalid.

Definition getMissingParams (params : option (list (string * jsval)))
    (requires : option (list string)) : option error :=
  match requires with
  | None => None
  | Some requires =>
      let missing :=
        match params with
        | None => requires
        | Some params => collect_missing params requires []
        end in
      if (0 <? length missing)%nat
      then Some (Error ("Missing required parameters: " +:+ JsString.join ", " missing))
      else None
  end.

Definition validateParams (params : option (list (string * jsval)))
    (requiredParams allParams : option (list string)) : option error :=
  let missing :=
    match requiredParams with
    | Some requiredParams =>
        match params with
        | None => requiredParams
        | Some params => collect_missing params requiredParams []
        end
    | None => []
    end in
  let invalid :=
    match allParams, params with
    | Some allParams, Some params => collect_invalid params allParams []
    | _, _ => []
    end in
  if (length missing =? 0)%nat && (length invalid =? 0)%nat then None
  else
    let errorMsg := "Parameter validation errors:" in
    let errorMsg :=
      if (0 <? length missing)%nat
      then errorMsg +:+ JsString.newline +:+ "  Missing required parameters: "
                    +:+ JsString.join ", " missing
      else errorMsg in
    let errorMsg :=
      if (0 <? length invalid)%nat
      then errorMsg +:+ JsString.newline +:+ "  Found invalid parameters: "
                    +:+ JsString.join ", " invalid
      else errorMsg in
    Some (Error errorMsg).

Section Files.

(** Collaborators from outside the repository: [basename] of the path
    module, [lookup] of mime-types (a type or [false]) and the awaited
    [FileType.fromBuffer] (an object with a [mime] property, or
    [undefined]). *)
Variable basename : string -> string.
Variable lookup : jsval -> jsval.
Variable fromBuffer : string -> jsval.

Definition getContentType (inputData : jsval) : jsval :=
  let contentType :=
    if isFileStream inputData then
      let mimeType := lookup (member inputData "path") in
      VObj {[ "mime" := js_or mimeType VNull ]}
    else
      match inputData with
      | VBuffer bytes => fromBuffer bytes
      | _ => VNull
      end in
  if truthy contentType then member contentType "mime" else VNull.

Definition buildRequestFileObject (fileParam : FileWithMetadata) : promise FileObject :=
  let fileObj :=
    if isFileObject (data fileParam) then
      (* For backward compatibility, the data may be a FileObject. *)
      let fileObj :=
        {| value := member (data fileParam) "value";
           options := {| filename := VUndefined; contentType := VUndefined |} |} in
      let data_options := member (data fileParam) "options" in
      if truthy data_options then
        {| value := value fileObj;
           options :=
             {| filename := js_or (fm_filename fileParam) (member data_options "filename");
                contentType :=
                  js_or (fm_contentType fileParam) (member data_options "contentType") |} |}
      else fileObj
    else
      {| value := data fileParam;
         options := {| filename := fm_filename fileParam;
                       contentType := fm_contentType fileParam |} |} in
  (* Also for backward compatibility, the data may be a string. *)
  let fileObj :=
    match value fileObj with
    | VStr s => {| value := VBuffer s; options := options fileObj |}
    | _ => fileObj
    end in
  (* build filename *)
  let filename0 := filename (options fileObj) in
  let filename1 :=
    if negb (truthy filename0) && isFileStream (value fileObj)
    then member (value fileObj) "path"
    else filename0 in
  let fileObj :=
    {| value := value fileObj;
       options :=
         {| filename := if truthy filename1
                        then VStr (basename (toString filename1))
                        else VStr "_";
            contentType := contentType (options fileObj) |} |} in
  (* build contentType *)
  let fileObj :=
    if negb (truthy (contentType (options fileObj))) && isFileData (value fileObj)
    then {| value := value fileObj;
            options :=
              {| filename := filename (options fileObj);
                 contentType :=
                   js_or (getContentType (value fileObj))
                         (VStr "application/octet-stream") |} |}
    else fileObj in
  Resolved fileObj.

End Files.

(** A [Map<string, string>] in insertion order. *)
Definition Map_get (m : list (string * string)) (name : string) : option string :=
  match List.find (fun kv => String.eqb (fst kv) name) m with
  | Some kv => Some (snd kv)
  | None => None
  end.

Definition Map_has (m : list (string * string)) (name : string) : bool :=
  existsb (fun kv => String.eqb (fst kv) name) m.

Definition placeholder (name : string) : string := "{" +:+ name +:+ "}".

(** The message of the error thrown for a provided name that has no default. *)
Definition invalid_variable_message (name : string)
    (defaultUrlVariables : list (string * string)) : string :=
  "'" +:+ name +:+ "' is an invalid variable name." +:+ JsString.newline
  +:+ "      Valid variable names: ["
  +:+ JsString.join "," (JsString.sort (map fst defaultUrlVariables)) +:+ "].".

Definition constructServiceUrl (parameterizedUrl : string)
    (defaultUrlVariables : list (string * string))
    (providedUrlVariables : option (list (string * string))) : completion string :=
  (* A null map of provided variables is an empty map. *)
  let providedUrlVariables :=
    match providedUrlVariables with
    | None => []
    | Some m => m
    end in
  (* Verify the provided variable names. *)
  match List.find (fun kv => negb (Map_has defaultUrlVariables (fst kv)))
                  providedUrlVariables with
  | Some kv => Throw (Error (invalid_variable_message (fst kv) defaultUrlVariables))
  | None =>
      (* Format the URL with provided or default variable values. *)
      Return
        (fold_left
           (fun formattedUrl kv =>
              let name := fst kv in
              let defaultValue := snd kv in
              let formatValue :=
                match Map_get providedUrlVariables name with
                | Some providedValue => providedValue
                | None => defaultValue
                end in
              JsString.replace formattedUrl (placeholder name) formatValue)
           defaultUrlVariables parameterizedUrl)
  end.

Definition isFileWithMetadata (obj : jsval) : bool :=
  truthy obj && truthy (member obj "data") && isFileData (member obj "data").

(** [key in params]: an own property or an inherited member. *)
Definition has_property (params : list (string * jsval)) (key : string) : bool :=
  existsb (fun kv => String.eqb (fst kv) key) params
  || existsb (String.eqb key) Object_prototype.

(** [getFormat(params, formats)]: the log entries written and the format
    returned ([None] is [null]). *)
Definition getFormat (params : option (list (string * jsval)))
    (formats : option (list string)) : list log_entry * option string :=
  match formats, params with
  | Some formats, Some params =>
      let validFormats := List.filter (has_property params) formats in
      match validFormats with
      | first :: _ => ([], Some first)
      | [] => ([LogDebug "No formats to parse in getFormat. Returning null"], None)
      end
  | _, _ => ([LogDebug "No formats to parse in getFormat. Returning null"], None)
  end.

(** A letter of [[a-z]] under the [i] flag. *)
Definition is_letter (c : ascii) : bool :=
  let n := nat_of_ascii c in
  ((65 <=? n) && (n <=? 90) || (97 <=? n) && (n <=? 122))%nat.

(** Whether [>] occurs in the text. *)
Fixpoint has_closing (text : string) : bool :=
  match text with
  | EmptyString => false
  | String c rest => Ascii.eqb c ">" || has_closing rest
  end.

(** [/<[a-z][\s\S]*>/i.test(text)]: somewhere a [<] is followed by a letter,
    and a [>] comes anywhere behind that. *)
Fixpoint matches_tag (text : string) : bool :=
  match text with
  | EmptyString => false
  | String c rest =>
      (Ascii.eqb c "<"
       && match rest with
          | EmptyString => false
          | String d rest' => is_letter d && has_closing rest'
          end)
      || matches_tag rest
  end.

Definition isHTML (text : string) : list log_entry * bool :=
  ([LogDebug ("Determining if the text " +:+ text +:+ " is HTML.")], matches_tag text).

Section LowerKeys.

(** [String.prototype.toLowerCase]. *)
Variable toLowerCase : string -> string.

(** [toLowerKeys(obj)]: [None] is a [null] or [undefined] argument; the
    object is given by its properties in the order of [Object.keys], and
    [Object.assign] lets a later property overwrite an earlier one of the
    same lower-case name.  The assignment to the name [__proto__] goes to
    the setter of [Object.prototype] and makes no property. *)
Definition toLowerKeys (obj : option (list (string * jsval))) : object :=
  match obj with
  | Some obj =>
      fold_left
        (fun lowerCaseObj kv =>
           if String.eqb (toLowerCase (fst kv)) "__proto__" then lowerCaseObj
           else <[toLowerCase (fst kv) := snd kv]> lowerCaseObj)
        obj ∅
  | None => ∅
  end.

End LowerKeys.

End Helper.

(** ** File-reading helpers of the authentication utilities *)

Module FileReadingHelpers.

Definition defaultCredsFilename : string := "ibm-credentials.env".

(** What [lstatSync] reports about a path. *)
Record Stats : Type := {
  isFile : bool;
  isSymbolicLink : bool
}.

(** The platform the helpers run on: whether the [fs] module is there at
    all (it is stubbed out in a browser), the process environment, and the
    functions imported from [fs], [os], [path] and [dotenv]. *)
Record Platform : Type := {
  fs_present : bool;
  IBM_CREDENTIALS_FILE : option string;
  cwd : string;
  homedir : string;
  existsSync : string -> bool;
  lstatSync : string -> Stats;
  readFileSync : string -> completion string;
  join : string -> string -> string;
  parse : string -> gmap string string
}.

Section OnPlatform.

Variable P : Platform.

Definition fileExistsAtPath (filepath : string) : bool :=
  if existsSync P filepath then
    let stats := lstatSync P filepath in
    isFile stats || isSymbolicLink stats
  else false.

Definition constructFilepath (filepath : string) : string :=
  (* ensure filepath includes the filename *)
  if negb (JsString.endsWith filepath defaultCredsFilename)
  then join P filepath defaultCredsFilename
  else filepath.

(** [readFileSync] applied to a variable that may still be [undefined]:
    Node rejects a path that is not a string with a [TypeError]. *)
Definition readFileSync_at (filepath : option string) : completion string :=
  match filepath with
  | Some filepath => readFileSync P filepath
  | None => Throw (TypeError "ERR_INVALID_ARG_TYPE: the path argument must be of type string")
  end.

(** The choice of [filepathToUse]: [None] is the early return of the last
    branch; [Some None] leaves the variable unassigned. *)
Definition choose_filepath : option (option string) :=
  let givenFilepath := default "" (IBM_CREDENTIALS_FILE P) in
  let workingDir := constructFilepath (cwd P) in
  let homeDir := constructFilepath (homedir P) in
  if negb (String.eqb givenFilepath "") then
    if fileExistsAtPath givenFilepath then Some (Some givenFilepath)
    else if fileExistsAtPath (constructFilepath givenFilepath)
         then Some (Some (constructFilepath givenFilepath))
         else Some None
  else if fileExistsAtPath workingDir then Some (Some workingDir)
  else if fileExistsAtPath homeDir then Some (Some homeDir)
  else None.

Definition readCredentialsFile : list log_entry * completion (gmap string string) :=
  if negb (fs_present P) then ([], Return ∅)
  else
    match choose_filepath with
    | None =>
        (* file does not exist anywhere, will not be used *)
        ([LogInfo "Credential file does not exist. Will not be used"], Return ∅)
    | Some filepathToUse =>
        match readFileSync_at filepathToUse with
        | Return credsFile => ([], Return (parse P credsFile))
        | Throw e => ([], Throw e)
        end
    end.

Definition readCrTokenFile (filepath : string) : list log_entry * completion string :=
  if negb (fs_present P) then ([], Return "")
  else
    let fileExists := fileExistsAtPath filepath in
    let read : list log_entry * completion string :=
      if fileExists then
        match readFileSync P filepath with
        | Return token =>
            ([LogDebug ("Successfully read CR token from file: " +:+ filepath)],
             Return token)
        | Throw e => ([], Throw e)
        end
      else ([], Return "") in
    match read with
    | (log, Throw e) => (log, Throw e)
    | (log, Return token) =>
        if String.eqb token "" then
          ((log ++
            [LogError
               (if fileExists
                then "Expected to read CR token from file but the file is empty: " +:+ filepath
                else "Expected to find CR token file but the file does not exist: " +:+ filepath)])%list,
           Throw (Error ("Unable to retrieve the CR token value from file: " +:+ filepath)))
        else (log, Return token)
    end.

End OnPlatform.

End FileReadingHelpers.

(** ** lib/base-service.ts *)

Module BaseService.

(** A request description: the per-call [options] and the [defaultOptions]
    taken from the service. *)
Record Parameters : Type := {
  options : jsval;
  defaultOptions : jsval
}.

(** Calls made to the collaborators, in order. *)
Inductive event : Type :=
| Authenticate (authenticator : jsval) (requestOptions : jsval)
| SendRequest (parameters : Parameters).

Definition is_send (e : event) : bool :=
  match e with SendRequest _ => true | Authenticate _ _ => false end.

Section Service.

(** Collaborators from outside this file.  [DEFAULT_SERVICE_URL] is the
    static member of the generated service class ([VUndefined] when the
    class declares none).  [authenticate auth opts] is the [authenticate]
    method of the authenticator object [auth]: it throws, or returns a
    promise that rejects, or one that resolves after possibly changing the
    request options in place, in which case the outcome carries their new
    contents. *)
Variable DEFAULT_SERVICE_URL : jsval.
Variable checkCredentials : object -> list string -> option error.
Variable readExternalSources : string -> option object.
Variable RequestWrapper : Type.
Variable newRequestWrapper : object -> RequestWrapper.
Variable sendRequest : RequestWrapper -> Parameters -> completion (promise jsval).
Variable authenticate : jsval -> jsval -> completion (promise jsval).

Record Service : Type := {
  baseOptions : object;
  authenticator : jsval;
  requestWrapperInstance : RequestWrapper
}.

(** [stripTrailingSlash] applied to an untyped value: only a string has a
    [replace] method. *)
Definition stripTrailingSlash_of (url : jsval) : completion jsval :=
  match url with
  | VStr s => Return (VStr (Helper.stripTrailingSlash s))
  | _ => Throw (TypeError "url.replace is not a function")
  end.

(** [new BaseService(userOptions)].  The instance is created with [new],
    so the guard against a plain call of the constructor does not fire. *)
Definition constructor (userOptions : object) : list log_entry * completion Service :=
  let options := userOptions in
  (* for compatibility *)
  let options :=
    if truthy (prop options "url") && negb (truthy (prop options "serviceUrl"))
    then <["serviceUrl" := prop options "url"]> options
    else options in
  let stripped : completion object :=
    if truthy (prop options "serviceUrl") then
      match stripTrailingSlash_of (prop options "serviceUrl") with
      | Return url => Return {["serviceUrl" := url]}
      | Throw e => Throw e
      end
    else Return ∅ in
  match stripped with
  | Throw e => ([], Throw e)
  | Return baseServiceOptions =>
      (* check serviceUrl for common user errors *)
      match checkCredentials options ["serviceUrl"] with
      | Some credentialProblems =>
          ([LogError match credentialProblems with
                     | Error m | TypeError m => m
                     end],
           Throw credentialProblems)
      | None =>
          (* anything but the boolean true is forced to false *)
          let options :=
            match prop options "disableSslVerification" with
            | VBool true => options
            | _ => <["disableSslVerification" := VBool false]> options
            end in
          let baseOptions : object :=
            baseServiceOptions ∪ options ∪
              <["serviceUrl" := DEFAULT_SERVICE_URL]> {["qs" := VObj ∅]} in
          let wrapper := newRequestWrapper baseOptions in
          (* enforce that an authenticator is set *)
          if negb (truthy (prop options "authenticator")) then
            ([], Throw (Error "Authenticator must be set."))
          else
            ([], Return {| baseOptions := baseOptions;
                           authenticator := prop options "authenticator";
                           requestWrapperInstance := wrapper |})
      end
  end.

Definition getAuthenticator (this : Service) : jsval := authenticator this.

Definition setServiceUrl (url : string) (this : Service) : Service :=
  if negb (String.eqb url "") then
    {| baseOptions := <["serviceUrl" := VStr (Helper.stripTrailingSlash url)]> (baseOptions this);
       authenticator := authenticator this;
       requestWrapperInstance := requestWrapperInstance this |}
  else this.

Definition setDefaultHeaders (headers : jsval) (this : Service) : Service :=
  match headers with
  | VNull | VArr _ | VObj _ | VBuffer _ | VStream _ | VOpaque _ =>
      {| baseOptions := <["headers" := headers]> (baseOptions this);
         authenticator := authenticator this;
         requestWrapperInstance := requestWrapperInstance this |}
  | _ => this
  end.

(** [if (cond) results[key] = v]. *)
Definition assign_if (cond : bool) (key : string) (v : jsval) (results : object) : object :=
  if cond then <[key := v]> results else results.

(** [v === true] and [v !== undefined]. *)
Definition is_true (v : jsval) : bool :=
  match v with VBool true => true | _ => false end.

Definition is_defined (v : jsval) : bool :=
  match v with VUndefined => false | _ => true end.

Definition readOptionsFromExternalConfig (serviceName : string) : completion object :=
  let results : object := ∅ in
  match readExternalSources serviceName with
  | None => Return results
  | Some properties =>
      let url := prop properties "url" in
      let disableSsl := prop properties "disableSsl" in
      let enableGzip := prop properties "enableGzip" in
      let enableRetries := prop properties "enableRetries" in
      let maxRetries := prop properties "maxRetries" in
      let retryInterval := prop properties "retryInterval" in
      let with_url : completion object :=
        if truthy url then
          match stripTrailingSlash_of url with
          | Return stripped => Return (<["serviceUrl" := stripped]> results)
          | Throw e => Throw e
          end
        else Return results in
      match with_url with
      | Throw e => Throw e
      | Return results =>
          let results :=
            assign_if (is_true disableSsl) "disableSslVerification" disableSsl results in
          let results :=
            assign_if (is_true enableGzip) "enableGzipCompression" enableGzip results in
          let results :=
            assign_if (is_defined enableRetries) "enableRetries" enableRetries results in
          let results :=
            assign_if (is_defined maxRetries) "maxRetries" maxRetries results in
          let results :=
            assign_if (is_defined retryInterval) "retryInterval" retryInterval results in
          Return results
      end
  end.

(** [configureService(serviceName)]; [None] is a call without a name.
    [Object.assign] copies every property of the external results over the
    live options. *)
Definition configureService (serviceName : option string) (this : Service)
  : list log_entry * completion Service :=
  match serviceName with
  | None | Some EmptyString =>
      let err := "Error configuring service. Service name is required." in
      ([LogError err], Throw (Error err))
  | Some serviceName =>
      match readOptionsFromExternalConfig serviceName with
      | Throw e => ([], Throw e)
      | Return results =>
          let baseOptions := results ∪ baseOptions this in
          ([], Return {| baseOptions := baseOptions;
                         authenticator := authenticator this;
                         requestWrapperInstance := newRequestWrapper baseOptions |})
      end
  end.

Definition is_string (v : jsval) : bool :=
  match v with VStr _ => true | _ => false end.

(** [createRequest(parameters)]: the calls made and the promise returned
    (or the error thrown). *)
Definition createRequest (this : Service) (parameters : Parameters)
  : list event * completion (promise jsval) :=
  (* validate serviceUrl parameter has been set *)
  let serviceUrl :=
    js_and (defaultOptions parameters) (member (defaultOptions parameters) "serviceUrl") in
  if negb (truthy serviceUrl) || negb (is_string serviceUrl) then
    ([], Return (Rejected (Error "The service URL is required")))
  else
    let call := Authenticate (authenticator this) (defaultOptions parameters) in
    match authenticate (authenticator this) (defaultOptions parameters) with
    | Throw e => ([call], Throw e)
    | Return (Rejected e) => ([call], Return (Rejected e))
    | Return (Resolved requestOptions) =>
        let parameters :=
          {| options := options parameters; defaultOptions := requestOptions |} in
        ([call; SendRequest parameters],
         Return match sendRequest (requestWrapperInstance this) parameters with
                | Return result => result
                | Throw e => Rejected e
                end)
    end.

End Service.

Arguments baseOptions {RequestWrapper} _.
Arguments authenticator {RequestWrapper} _.
Arguments requestWrapperInstance {RequestWrapper} _.
Arguments getAuthenticator {RequestWrapper} _.
Arguments setServiceUrl {RequestWrapper} _ _.
Arguments setDefaultHeaders {RequestWrapper} _ _.
Arguments constructor _ _ {RequestWrapper} _ _.
Arguments configureService _ {RequestWrapper} _ _ _.
Arguments createRequest {RequestWrapper} _ _ _ _.

End BaseService.

(** * Properties *)

(** ** Facts about strings *)

Module StringFacts.

Import JsString.

Lemma app_nil_l (s : string) : "" +:+ s = s.
Proof. reflexivity. Qed.

Lemma app_cons (c : ascii) (s t : string) : String c s +:+ t = String c (s +:+ t).
Proof. reflexivity. Qed.

(** Pushes appends under the leading characters. *)
Ltac push_app := rewrite ?app_cons, ?app_nil_l in *.

Lemma append_nil_r (s : string) : s +:+ "" = s.
Proof. induction s as [|c s IH]; push_app; [reflexivity | f_equal; exact IH]. Qed.

Lemma append_assoc (s t u : string) : (s +:+ t) +:+ u = s +:+ t +:+ u.
Proof. induction s as [|c s IH]; push_app; [reflexivity | f_equal; exact IH]. Qed.

Lemma length_append (s t : string) :
  String.length (s +:+ t) = (String.length s + String.length t)%nat.
Proof.
  induction s as [|c s IH]; push_app; simpl; [reflexivity | f_equal; exact IH].
Qed.

Lemma drop_append (s t : string) : drop (String.length s) (s +:+ t) = t.
Proof. induction s as [|c s IH]; push_app; simpl; [reflexivity | exact IH]. Qed.

Lemma drop_suffix (n : nat) (s : string) : exists t, s = t +:+ drop n s.
Proof.
  revert s; induction n as [|n IH]; intros s.
  - exists "". reflexivity.
  - destruct s as [|c s]; simpl.
    + exists "". reflexivity.
    + destruct (IH s) as [t Ht]. exists (String c t). push_app. now rewrite <- Ht.
Qed.

(** [endsWith] decides being of the form [t +:+ suffix]. *)
Lemma endsWith_spec (s suffix : string) :
  endsWith s suffix = true <-> exists t, s = t +:+ suffix.
Proof.
  unfold endsWith. split.
  - intros H. apply andb_prop in H as [_ H]. apply String.eqb_eq in H.
    destruct (drop_suffix (String.length s - String.length suffix) s) as [t Ht].
    exists t. now rewrite <- H.
  - intros [t ->]. rewrite length_append. apply andb_true_intro. split.
    + apply Nat.leb_le. lia.
    + replace (String.length t + String.length suffix - String.length suffix)%nat
        with (String.length t) by lia.
      rewrite drop_append. apply String.eqb_refl.
Qed.

Lemma endsWith_false (s suffix : string) :
  endsWith s suffix = false <-> ~ exists t, s = t +:+ suffix.
Proof.
  rewrite <- endsWith_spec. destruct (endsWith s suffix); split; intros H.
  - discriminate.
  - now contradiction H.
  - intros [=].
  - reflexivity.
Qed.

(** Every non-empty string ends in some character. *)
Lemma snoc_cases (s : string) : s = "" \/ exists t c, s = t +:+ String c "".
Proof.
  induction s as [|c s IH]; [now left | right].
  destruct IH as [-> | (t & d & ->)].
  - exists "", c. reflexivity.
  - exists (String c t), d. reflexivity.
Qed.

Lemma snoc_not_nil (t : string) (c : ascii) : t +:+ String c "" <> "".
Proof. destruct t; discriminate. Qed.

End StringFacts.

(** ** [stripTrailingSlash] *)

Module StripFacts.

Import JsString StringFacts Helper.

Lemma strip_cons (c : ascii) (s : string) :
  s <> "" -> stripTrailingSlash (String c s) = String c (stripTrailingSlash s).
Proof. destruct s; [contradiction | reflexivity]. Qed.

Lemma strip_slash (t : string) : stripTrailingSlash (t +:+ "/") = t.
Proof.
  induction t as [|c t IH]; [reflexivity|].
  push_app. rewrite strip_cons by apply snoc_not_nil. now rewrite IH.
Qed.

Lemma strip_other (t : string) (c : ascii) :
  c <> "/"%char -> stripTrailingSlash (t +:+ String c "") = t +:+ String c "".
Proof.
  intros Hc. induction t as [|a t IH].
  - push_app. simpl. destruct (Ascii.eqb_spec c "/"); [contradiction | reflexivity].
  - push_app. rewrite strip_cons by apply snoc_not_nil. now rewrite IH.
Qed.

(** A string that does not end in a slash is left as it is. *)
Lemma strip_no_slash (s : string) :
  endsWith s "/" = false -> stripTrailingSlash s = s.
Proof.
  intros H. destruct (snoc_cases s) as [-> | (t & c & ->)]; [reflexivity|].
  apply strip_other. intros ->.
  apply endsWith_false in H. apply H. now exists t.
Qed.

(** The result ends in a slash only if the input ended in two. *)
Lemma strip_result (s : string) :
  endsWith s "//" = false -> endsWith (stripTrailingSlash s) "/" = false.
Proof.
  intros H. destruct (endsWith s "/") eqn:E.
  - apply endsWith_spec in E as [t ->]. rewrite strip_slash.
    apply endsWith_false. intros [u ->].
    apply endsWith_false in H. apply H. exists u.
    now rewrite append_assoc.
  - now rewrite strip_no_slash.
Qed.

End StripFacts.

(** ** The service base class *)

Module ServiceFacts.

Import JsString StringFacts StripFacts BaseService.

(** The invariant on the normalized options: a string [serviceUrl] does not
    end in a slash. *)
Definition serviceUrl_ok (o : object) : Prop :=
  forall s, o !! "serviceUrl" = Some (VStr s) -> endsWith s "/" = false.

(** A string input that [stripTrailingSlash] fully normalizes. *)
Definition single_slash (v : jsval) : Prop :=
  forall s, v = VStr s -> endsWith s "//" = false.

Lemma prop_lookup (o : object) (k : string) (v : jsval) :
  o !! k = Some v -> prop o k = v.
Proof. unfold prop. now intros ->. Qed.

Lemma prop_None (o : object) (k : string) : o !! k = None -> prop o k = VUndefined.
Proof. unfold prop. now intros ->. Qed.

Lemma falsy_string (s : string) : truthy (VStr s) = false -> s = "".
Proof.
  simpl. destruct (String.eqb_spec s ""); [trivial | discriminate].
Qed.

Section WithCollaborators.

Variable DEFAULT_SERVICE_URL : jsval.
Variable checkCredentials : object -> list string -> option error.
Variable readExternalSources : string -> option object.
Variable RequestWrapper : Type.
Variable newRequestWrapper : object -> RequestWrapper.
Variable sendRequest : RequestWrapper -> Parameters -> completion (promise jsval).
Variable authenticate : jsval -> jsval -> completion (promise jsval).

Local Abbreviation construct :=
  (constructor DEFAULT_SERVICE_URL checkCredentials newRequestWrapper).
Local Abbreviation configure := (configureService readExternalSources newRequestWrapper).
Local Abbreviation external := (readOptionsFromExternalConfig readExternalSources).
Local Abbreviation request := (createRequest sendRequest authenticate).

Lemma setServiceUrl_ok (url : string) (this : Service RequestWrapper) :
  endsWith url "//" = false ->
  serviceUrl_ok (baseOptions this) ->
  serviceUrl_ok (baseOptions (setServiceUrl url this)).
Proof.
  intros Hurl Hok. unfold setServiceUrl.
  destruct (String.eqb url ""); simpl; [exact Hok|].
  intros s Hs. rewrite lookup_insert_eq in Hs. injection Hs as <-.
  now apply strip_result.
Qed.

Lemma constructor_ok (userOptions : object) (log : list log_entry)
    (this : Service RequestWrapper) :
  single_slash (prop userOptions "serviceUrl") ->
  single_slash (prop userOptions "url") ->
  (forall d, DEFAULT_SERVICE_URL = VStr d -> endsWith d "/" = false) ->
  construct userOptions = (log, Return this) ->
  serviceUrl_ok (baseOptions this).
Proof.
  intros Hs Hu Hd. unfold constructor.
  set (o1 := if truthy (prop userOptions "url")
                && negb (truthy (prop userOptions "serviceUrl"))
             then <["serviceUrl" := prop userOptions "url"]> userOptions
             else userOptions).
  assert (Ho1 : single_slash (prop o1 "serviceUrl")).
  { subst o1. destruct (_ && _); [|exact Hs].
    unfold prop at 1. now rewrite lookup_insert_eq. }
  set (o2 := match prop o1 "disableSslVerification" with
             | VBool true => o1
             | _ => <["disableSslVerification" := VBool false]> o1
             end).
  assert (Ho2 : o2 !! "serviceUrl" = o1 !! "serviceUrl").
  { subst o2. destruct (prop o1 "disableSslVerification") as [| |[]| | | | | | |];
      try reflexivity; now rewrite lookup_insert_ne. }
  intros Hc.
  destruct (truthy (prop o1 "serviceUrl")) eqn:T.
  - destruct (prop o1 "serviceUrl") as [| | | |s0| | | | |] eqn:E;
      simpl in Hc; try discriminate Hc.
    revert Hc. destruct (checkCredentials o1 _); [discriminate|].
    destruct (negb (truthy (prop o2 "authenticator"))); [discriminate|].
    intros Hc; injection Hc as _ <-; simpl.
    intros s Hlk. rewrite <- (assoc_L (∪)) in Hlk.
    erewrite lookup_union_Some_l in Hlk by apply lookup_singleton_eq.
    injection Hlk as <-. apply strip_result. now apply Ho1.
  - revert Hc. destruct (checkCredentials o1 _); [discriminate|].
    destruct (negb (truthy (prop o2 "authenticator"))); [discriminate|].
    intros Hc; injection Hc as _ <-; simpl.
    intros s Hlk. rewrite (left_id_L ∅ (∪)) in Hlk.
    apply lookup_union_Some_raw in Hlk as [Hlk | [_ Hlk]].
    + rewrite Ho2 in Hlk. apply prop_lookup in Hlk. rewrite Hlk in T.
      apply falsy_string in T as ->. reflexivity.
    + rewrite lookup_insert_eq in Hlk. injection Hlk as Hlk. now apply Hd.
Qed.

Lemma is_true_eq (v : jsval) : is_true v = true -> v = VBool true.
Proof. destruct v as [| |[]| | | | | | |]; simpl; congruence. Qed.

Lemma lookup_assign_if (cond : bool) (key j : string) (v : jsval) (o : object) :
  assign_if cond key v o !! j
  = if cond && bool_decide (key = j) then Some v else o !! j.
Proof.
  unfold assign_if. destruct cond; simpl; [|reflexivity].
  destruct (bool_decide_reflect (key = j)) as [->|Hne].
  - apply lookup_insert_eq.
  - now apply lookup_insert_ne.
Qed.

(** The properties [readOptionsFromExternalConfig] may set. *)
Definition external_keys : list string :=
  ["serviceUrl"; "disableSslVerification"; "enableGzipCompression";
   "enableRetries"; "maxRetries"; "retryInterval"].

(** What the external record says about [serviceUrl]: a non-empty string
    [url], stripped. *)
Definition external_url (properties : object) : option jsval :=
  match prop properties "url" with
  | VStr s => if String.eqb s "" then None else Some (VStr (Helper.stripTrailingSlash s))
  | _ => None
  end.

(** A flag of the external record that counts only when it is [true]. *)
Definition external_flag (properties : object) (key : string) : option jsval :=
  if is_true (prop properties key) then Some (VBool true) else None.

(** A setting of the external record that counts whenever it is defined. *)
Definition external_setting (properties : object) (key : string) : option jsval :=
  if is_defined (prop properties key) then Some (prop properties key) else None.

(** Settles the comparisons of property names in the goal. *)
Ltac decide_keys :=
  repeat match goal with
         | |- context [bool_decide (?a = ?b)] =>
             first [ rewrite (bool_decide_eq_true_2 (a = b)) by reflexivity
                   | rewrite (bool_decide_eq_false_2 (a = b)) by congruence ]
         end.

(** The first step of [readOptionsFromExternalConfig]. *)
Lemma external_url_step (url : jsval) :
  (truthy url = true -> is_string url = true) ->
  exists m : object,
    (if truthy url
     then match stripTrailingSlash_of url with
          | Return stripped => Return (<["serviceUrl" := stripped]> (∅ : object))
          | Throw e => Throw e
          end
     else Return ∅) = Return m
    /\ m !! "serviceUrl"
       = match url with
         | VStr s => if String.eqb s "" then None
                     else Some (VStr (Helper.stripTrailingSlash s))
         | _ => None
         end
    /\ forall k, k <> "serviceUrl" -> m !! k = None.
Proof.
  intros Hurl.
  destruct url as [| |[]|n|s| | | | |]; simpl in *;
    try (specialize (Hurl eq_refl); discriminate Hurl);
    try (eexists; split; [reflexivity | split; [reflexivity | intros; apply lookup_empty]]).
  - destruct (Z.eqb n 0); simpl in *;
      [eexists; split; [reflexivity | split; [reflexivity | intros; apply lookup_empty]]
      | specialize (Hurl eq_refl); discriminate Hurl].
  - destruct (String.eqb s ""); simpl.
    + eexists; split; [reflexivity | split; [reflexivity | intros; apply lookup_empty]].
    + eexists; split; [reflexivity | split; [apply lookup_insert_eq |]].
      intros k Hk. now rewrite lookup_insert_ne.
Qed.

Lemma external_results (serviceName : string) (properties : object) :
  readExternalSources serviceName = Some properties ->
  (truthy (prop properties "url") = true -> is_string (prop properties "url") = true) ->
  exists results,
    external serviceName = Return results
    /\ results !! "serviceUrl" = external_url properties
    /\ results !! "disableSslVerification" = external_flag properties "disableSsl"
    /\ results !! "enableGzipCompression" = external_flag properties "enableGzip"
    /\ results !! "enableRetries" = external_setting properties "enableRetries"
    /\ results !! "maxRetries" = external_setting properties "maxRetries"
    /\ results !! "retryInterval" = external_setting properties "retryInterval"
    /\ forall k, k ∉ external_keys -> results !! k = None.
Proof.
  intros Hsrc Hurl. unfold readOptionsFromExternalConfig. rewrite Hsrc. cbv zeta.
  destruct (external_url_step _ Hurl) as (m & -> & Hm1 & Hm2).
  unfold external_url, external_flag, external_setting.
  eexists; split; [reflexivity|].
  repeat split;
    [ .. | intros k Hk; unfold external_keys in Hk;
           rewrite !not_elem_of_cons in Hk; destruct Hk as (?&?&?&?&?&?&_)];
    rewrite !lookup_assign_if; decide_keys; rewrite ?andb_false_r, ?andb_true_r.
  - exact Hm1.
  - destruct (is_true (prop properties "disableSsl")) eqn:E;
      [now rewrite (is_true_eq _ E) | now apply Hm2].
  - destruct (is_true (prop properties "enableGzip")) eqn:E;
      [now rewrite (is_true_eq _ E) | now apply Hm2].
  - destruct (is_defined (prop properties "enableRetries")); [reflexivity | now apply Hm2].
  - destruct (is_defined (prop properties "maxRetries")); [reflexivity | now apply Hm2].
  - destruct (is_defined (prop properties "retryInterval")); [reflexivity | now apply Hm2].
  - now apply Hm2.
Qed.

Lemma external_serviceUrl (serviceName : string) (results : object) (s : string) :
  external serviceName = Return results ->
  results !! "serviceUrl" = Some (VStr s) ->
  exists properties u,
    readExternalSources serviceName = Some properties
    /\ prop properties "url" = VStr u
    /\ s = Helper.stripTrailingSlash u.
Proof.
  intros Hres Hlk.
  destruct (readExternalSources serviceName) as [properties|] eqn:Hsrc.
  - destruct (truthy (prop properties "url")) eqn:T;
      [destruct (is_string (prop properties "url")) eqn:I|].
    + destruct (external_results serviceName properties Hsrc)
        as (r & Hr & Hu & _); [trivial|].
      rewrite Hr in Hres. injection Hres as <-. rewrite Hu in Hlk.
      unfold external_url in Hlk.
      destruct (prop properties "url") as [| | | |u| | | | |] eqn:Eu;
        try discriminate.
      destruct (String.eqb u ""); [discriminate|].
      injection Hlk as <-. now exists properties, u.
    + exfalso. unfold readOptionsFromExternalConfig in Hres.
      rewrite Hsrc, T in Hres.
      destruct (prop properties "url"); simpl in *; discriminate.
    + destruct (external_results serviceName properties Hsrc)
        as (r & Hr & Hu & _); [rewrite T; discriminate|].
      rewrite Hr in Hres. injection Hres as <-. rewrite Hu in Hlk.
      unfold external_url in Hlk.
      destruct (prop properties "url") as [| | | |u| | | | |]; try discriminate.
      simpl in T. destruct (String.eqb u ""); discriminate.
  - unfold readOptionsFromExternalConfig in Hres. rewrite Hsrc in Hres.
    injection Hres as <-. rewrite lookup_empty in Hlk. discriminate.
Qed.

Lemma configureService_ok (serviceName : option string) (log : list log_entry)
    (this this' : Service RequestWrapper) :
  (forall name properties,
     serviceName = Some name -> readExternalSources name = Some properties ->
     single_slash (prop properties "url")) ->
  serviceUrl_ok (baseOptions this) ->
  configure serviceName this = (log, Return this') ->
  serviceUrl_ok (baseOptions this').
Proof.
  intros Hext Hok. unfold configureService.
  destruct serviceName as [[|c name]|]; try discriminate.
  destruct (external (String c name)) as [results|] eqn:Hres; [|discriminate].
  intros H; injection H as _ <-; simpl.
  intros s Hlk. apply lookup_union_Some_raw in Hlk as [Hlk | [_ Hlk]].
  - destruct (external_serviceUrl _ _ _ Hres Hlk) as (properties & u & Hsrc & Hu & ->).
    apply strip_result. now apply (Hext _ _ eq_refl Hsrc).
  - now apply Hok.
Qed.

(** C3 (amended): a string input that does not end in two slashes leaves
    the stored [serviceUrl] without a trailing slash: after construction
    (whether the input came as [serviceUrl] or as the legacy [url], and
    given a class default that has none), after [setServiceUrl], and after
    [configureService] (which, like [setServiceUrl], keeps the stored URL
    when the input is empty). *)
Theorem serviceUrl_without_trailing_slash :
  (forall userOptions log this,
     single_slash (prop userOptions "serviceUrl") ->
     single_slash (prop userOptions "url") ->
     (forall d, DEFAULT_SERVICE_URL = VStr d -> endsWith d "/" = false) ->
     construct userOptions = (log, Return this) ->
     serviceUrl_ok (baseOptions this))
  /\ (forall url (this : Service RequestWrapper),
        endsWith url "//" = false ->
        serviceUrl_ok (baseOptions this) ->
        serviceUrl_ok (baseOptions (setServiceUrl url this)))
  /\ (forall serviceName log (this this' : Service RequestWrapper),
        (forall name properties,
           serviceName = Some name -> readExternalSources name = Some properties ->
           single_slash (prop properties "url")) ->
        serviceUrl_ok (baseOptions this) ->
        configure serviceName this = (log, Return this') ->
        serviceUrl_ok (baseOptions this')).
Proof.
  split; [|split].
  - intros userOptions log this. apply constructor_ok.
  - intros url this. apply setServiceUrl_ok.
  - intros serviceName log this this'. apply configureService_ok.
Qed.

(** An external value takes the place of the stored one. *)
Definition overwrite (ext stored : option jsval) : option jsval :=
  match ext with
  | Some v => Some v
  | None => stored
  end.

(** C5 (amended): [configureService] throws a configuration error without
    a service name; otherwise it overwrites [serviceUrl] with the stripped
    external [url] when that is a non-empty string,
    [disableSslVerification] and [enableGzipCompression] when the external
    [disableSsl] and [enableGzip] are the boolean [true], and
    [enableRetries], [maxRetries], [retryInterval] whenever the external
    record defines them; every other field keeps its value. *)
Theorem configureService_overlay (this : Service RequestWrapper) :
  (forall serviceName, serviceName = None \/ serviceName = Some "" ->
     configure serviceName this =
       ([LogError "Error configuring service. Service name is required."],
        Throw (Error "Error configuring service. Service name is required.")))
  /\ (forall serviceName properties,
        serviceName <> "" ->
        readExternalSources serviceName = Some properties ->
        (truthy (prop properties "url") = true ->
         is_string (prop properties "url") = true) ->
        exists this',
          configure (Some serviceName) this = ([], Return this')
          /\ authenticator this' = authenticator this
          /\ baseOptions this' !! "serviceUrl"
             = overwrite (external_url properties) (baseOptions this !! "serviceUrl")
          /\ baseOptions this' !! "disableSslVerification"
             = overwrite (external_flag properties "disableSsl")
                         (baseOptions this !! "disableSslVerification")
          /\ baseOptions this' !! "enableGzipCompression"
             = overwrite (external_flag properties "enableGzip")
                         (baseOptions this !! "enableGzipCompression")
          /\ baseOptions this' !! "enableRetries"
             = overwrite (external_setting properties "enableRetries")
                         (baseOptions this !! "enableRetries")
          /\ baseOptions this' !! "maxRetries"
             = overwrite (external_setting properties "maxRetries")
                         (baseOptions this !! "maxRetries")
          /\ baseOptions this' !! "retryInterval"
             = overwrite (external_setting properties "retryInterval")
                         (baseOptions this !! "retryInterval")
          /\ forall k, k ∉ external_keys ->
               baseOptions this' !! k = baseOptions this !! k).
Proof.
  split.
  - intros serviceName [-> | ->]; reflexivity.
  - intros serviceName properties Hname Hsrc Hurl.
    destruct (external_results serviceName properties Hsrc Hurl)
      as (results & Hres & H1 & H2 & H3 & H4 & H5 & H6 & Hframe).
    unfold configureService. destruct serviceName as [|c name]; [contradiction|].
    rewrite Hres. eexists; split; [reflexivity|]. simpl.
    assert (Hov : forall k, (results ∪ baseOptions this) !! k
                    = overwrite (results !! k) (baseOptions this !! k)).
    { intros k. rewrite lookup_union. unfold overwrite.
      destruct (results !! k), (baseOptions this !! k); reflexivity. }
    rewrite !Hov, H1, H2, H3, H4, H5, H6.
    repeat (split; [reflexivity|]).
    intros k Hk. now rewrite Hov, (Hframe k Hk).
Qed.

(** A request description that passes the check of [createRequest]. *)
Definition accepted (parameters : Parameters) : bool :=
  let serviceUrl :=
    js_and (defaultOptions parameters) (member (defaultOptions parameters) "serviceUrl") in
  truthy serviceUrl && is_string serviceUrl.

(** C2: for an accepted request description, a [SendRequest] call appears
    in the trace only when [authenticate] resolved, and then after the
    [Authenticate] call; when [authenticate] rejects (or throws) the
    dispatch fails with that same error and nothing is sent. *)
Theorem createRequest_authenticates_first (this : Service RequestWrapper)
    (parameters : Parameters) :
  accepted parameters = true ->
  let trace := fst (request this parameters) in
  let result := snd (request this parameters) in
  let call := Authenticate (authenticator this) (defaultOptions parameters) in
  let outcome := authenticate (authenticator this) (defaultOptions parameters) in
  (forall i sent, trace !! i = Some (SendRequest sent) ->
     (exists requestOptions, outcome = Return (Resolved requestOptions))
     /\ exists j, (j < i)%nat /\ trace !! j = Some call)
  /\ (forall e, outcome = Return (Rejected e) ->
        result = Return (Rejected e) /\ existsb is_send trace = false)
  /\ (forall e, outcome = Throw e ->
        result = Throw e /\ existsb is_send trace = false)
  /\ (forall requestOptions, outcome = Return (Resolved requestOptions) ->
        trace = [call; SendRequest {| options := options parameters;
                                      defaultOptions := requestOptions |}]).
Proof.
  intros Hacc. unfold accepted in Hacc. unfold createRequest. cbv zeta.
  destruct (truthy _) eqn:T in Hacc; [|discriminate Hacc].
  simpl in Hacc. rewrite T, Hacc. simpl.
  destruct (authenticate (authenticator this) (defaultOptions parameters))
    as [[requestOptions|e]|e]; simpl; (split; [|split; [|split]]).
  - intros i sent Hi. split; [eauto|].
    destruct i as [|[|i]]; try discriminate Hi.
    exists 0%nat. split; [lia | reflexivity].
  - intros e [=].
  - intros e [=].
  - intros requestOptions' [= <-]. reflexivity.
  - intros i sent Hi. destruct i as [|[|i]]; discriminate Hi.
  - intros e' [= <-]. split; reflexivity.
  - intros e' [=].
  - intros requestOptions [=].
  - intros i sent Hi. destruct i as [|[|i]]; discriminate Hi.
  - intros e' [=].
  - intros e' [= <-]. split; reflexivity.
  - intros requestOptions [=].
Qed.

(** C4: a request description whose [defaultOptions] carries no non-empty
    string [serviceUrl] gets a rejected promise back (nothing is thrown),
    and neither [authenticate] nor [sendRequest] is called. *)
Theorem createRequest_requires_serviceUrl (this : Service RequestWrapper)
    (parameters : Parameters) :
  (forall s, member (defaultOptions parameters) "serviceUrl" = VStr s -> s = "") ->
  request this parameters
  = ([], Return (Rejected (Error "The service URL is required"))).
Proof.
  intros Hnone. unfold createRequest, js_and.
  destruct (truthy (defaultOptions parameters)) eqn:T.
  - destruct (member (defaultOptions parameters) "serviceUrl")
      as [| |b|n|s| | | | |] eqn:E; try reflexivity.
    + now destruct b.
    + simpl. now destruct (Z.eqb n 0).
    + now rewrite (Hnone s eq_refl).
  - now rewrite T.
Qed.

End WithCollaborators.

(** *** Concrete services *)

(** Collaborators for the examples: no credential problems, a transport
    handle without content, an authenticator that turns every request
    down and a transport that answers [null]. *)
Definition no_problems (_ : object) (_ : list string) : option error := None.
Definition plain_wrapper (_ : object) : unit := tt.
Definition denying (_ _ : jsval) : completion (promise jsval) :=
  Return (Rejected (Error "denied")).
Definition answering (_ : unit) (_ : Parameters) : completion (promise jsval) :=
  Return (Resolved VNull).

(** An external source that only says [disableSsl = false], and one that
    sets a URL and the retry options. *)
Definition external_ssl_off (_ : string) : option object :=
  Some {[ "disableSsl" := VBool false ]}.

Definition external_full (_ : string) : option object :=
  Some (<["url" := VStr "https://external/"]>
        (<["enableRetries" := VBool true]>
         {[ "maxRetries" := VNum 3 ]})).

Definition sample_service : Service unit :=
  {| baseOptions := <["serviceUrl" := VStr "https://host"]>
                    (<["disableSslVerification" := VBool true]>
                     {[ "version" := VStr "2021-01-01" ]});
     authenticator := VOpaque 1;
     requestWrapperInstance := tt |}.

Definition sample_request : Parameters :=
  {| options := VObj {[ "method" := VStr "GET" ]};
     defaultOptions := VObj {[ "serviceUrl" := VStr "https://host" ]} |}.

Definition request_without_url : Parameters :=
  {| options := VObj {[ "method" := VStr "GET" ]};
     defaultOptions := VObj {[ "serviceUrl" := VStr "" ]} |}.

Lemma sample_service_ok : serviceUrl_ok (baseOptions sample_service).
Proof. intros s Hs. vm_compute in Hs. injection Hs as <-. reflexivity. Defined.

(** C3, as stated, fails for an input that ends in two slashes: one of
    them stays. *)
Lemma serviceUrl_double_slash_counterexample :
  ~ serviceUrl_ok (baseOptions (setServiceUrl "https://host//" sample_service)).
Proof.
  intros H. specialize (H "https://host/" eq_refl). discriminate H.
Qed.

Lemma serviceUrl_without_trailing_slash_witness :
  serviceUrl_ok (baseOptions (setServiceUrl "https://host/" sample_service)).
Proof.
  apply (proj1 (proj2 (serviceUrl_without_trailing_slash
                         VUndefined no_problems external_full unit plain_wrapper))).
  - reflexivity.
  - exact sample_service_ok.
Defined.

(** C5, as stated, fails for a flag that the external source gives as
    [false]: it is present there, yet the stored [true] is kept. *)
Lemma configureService_flag_counterexample :
  ~ (forall this',
       configureService external_ssl_off plain_wrapper (Some "my-service") sample_service
       = ([], Return this') ->
       forall properties v,
         external_ssl_off "my-service" = Some properties ->
         properties !! "disableSsl" = Some v ->
         baseOptions this' !! "disableSslVerification" = Some v).
Proof.
  intros H.
  specialize (H _ eq_refl _ (VBool false) eq_refl eq_refl).
  vm_compute in H. discriminate H.
Qed.

Lemma configureService_overlay_witness :
  exists this',
    configureService external_full plain_wrapper (Some "my-service") sample_service
    = ([], Return this')
    /\ baseOptions this' !! "serviceUrl" = Some (VStr "https://external")
    /\ baseOptions this' !! "enableRetries" = Some (VBool true)
    /\ baseOptions this' !! "disableSslVerification" = Some (VBool true)
    /\ baseOptions this' !! "version" = Some (VStr "2021-01-01").
Proof.
  destruct (proj2 (configureService_overlay external_full unit plain_wrapper
                     sample_service)
              "my-service" (<["url" := VStr "https://external/"]>
                            (<["enableRetries" := VBool true]>
                             {[ "maxRetries" := VNum 3 ]})))
    as (this' & Hrun & _ & Hurl & Hssl & _ & Hretries & _ & _ & Hframe).
  - discriminate.
  - reflexivity.
  - reflexivity.
  - exists this'. split; [exact Hrun|].
    split; [rewrite Hurl; reflexivity|].
    split; [rewrite Hretries; reflexivity|].
    split; [rewrite Hssl; reflexivity|].
    rewrite Hframe; [reflexivity|].
    unfold external_keys. rewrite !not_elem_of_cons.
    repeat split; try discriminate. apply not_elem_of_nil.
Defined.

Lemma createRequest_authenticates_first_witness :
  snd (createRequest answering denying sample_service sample_request)
  = Return (Rejected (Error "denied"))
  /\ existsb is_send (fst (createRequest answering denying sample_service sample_request))
     = false.
Proof.
  apply (proj1 (proj2 (createRequest_authenticates_first
                         unit answering denying sample_service sample_request
                         eq_refl))).
  reflexivity.
Defined.

Lemma createRequest_requires_serviceUrl_witness :
  createRequest answering denying sample_service request_without_url
  = ([], Return (Rejected (Error "The service URL is required"))).
Proof.
  apply createRequest_requires_serviceUrl.
  intros s Hs. vm_compute in Hs. injection Hs as <-. reflexivity.
Defined.

End ServiceFacts.

(** ** The file-reading helpers *)

Module FileFacts.

Import JsString StringFacts FileReadingHelpers.

(** A platform with three paths: a credentials file in the home
    directory, a token file, and an empty token file. *)
Definition sample_files (filepath : string) : option string :=
  if String.eqb filepath "/home/user/ibm-credentials.env" then Some "MY_SERVICE_URL=https://host"
  else if String.eqb filepath "/var/run/token" then Some "eyJhbGciOi"
  else if String.eqb filepath "/var/run/empty" then Some ""
  else None.

Definition platform_of (env : option string) (files : string -> option string) : Platform :=
  {| fs_present := true;
     IBM_CREDENTIALS_FILE := env;
     cwd := "/work";
     homedir := "/home/user";
     existsSync := fun filepath => bool_decide (is_Some (files filepath));
     lstatSync := fun _ => {| isFile := true; isSymbolicLink := false |};
     readFileSync := fun filepath =>
                       match files filepath with
                       | Some contents => Return contents
                       | None => Throw (Error "ENOENT: no such file or directory")
                       end;
     join := fun dir name => dir +:+ "/" +:+ name;
     parse := fun contents => {[ "contents" := contents ]} |}.

Definition sample_platform : Platform := platform_of None sample_files.

(** The environment variable names a path, and nothing exists anywhere. *)
Definition platform_env_nowhere : Platform :=
  platform_of (Some "/no/such/credentials") (fun _ => None).

Section OnPlatform.

Variable P : Platform.

(** Without the environment variable and without a file in the working or
    the home directory, the result is the empty record and one
    informational entry. *)
Lemma readCredentialsFile_no_file :
  fs_present P = true ->
  IBM_CREDENTIALS_FILE P = None \/ IBM_CREDENTIALS_FILE P = Some "" ->
  fileExistsAtPath P (constructFilepath P (cwd P)) = false ->
  fileExistsAtPath P (constructFilepath P (homedir P)) = false ->
  readCredentialsFile P
  = ([LogInfo "Credential file does not exist. Will not be used"], Return ∅).
Proof.
  intros Hfs Henv Hcwd Hhome. unfold readCredentialsFile, choose_filepath.
  rewrite Hfs, Hcwd, Hhome. now destruct Henv as [-> | ->].
Qed.

(** With the environment variable set to a path where nothing is found,
    [filepathToUse] stays unassigned and reading it throws. *)
Lemma readCredentialsFile_env_nowhere (given : string) :
  fs_present P = true ->
  IBM_CREDENTIALS_FILE P = Some given ->
  given <> "" ->
  fileExistsAtPath P given = false ->
  fileExistsAtPath P (constructFilepath P given) = false ->
  exists e, readCredentialsFile P = ([], Throw (TypeError e)).
Proof.
  intros Hfs Henv Hne Hfile Hdir. unfold readCredentialsFile, choose_filepath.
  rewrite Hfs, Henv. simpl.
  destruct (String.eqb_spec given ""); [contradiction|]. simpl.
  rewrite Hfile, Hdir. simpl. eauto.
Qed.

(** C7 (amended): without the file system module [readCrTokenFile]
    returns the empty string and throws nothing.  With it,
    [readCrTokenFile] throws for an absent file and for an empty one, and
    the error thrown is the same in both cases, message included; what
    tells the two causes apart is only the error entry logged before the
    throw.  The contents of a non-empty file are returned in full. *)
Theorem readCrTokenFile_outcomes (filepath : string) :
  let failure : completion string :=
    Throw (Error ("Unable to retrieve the CR token value from file: " +:+ filepath)) in
  let missing :=
    "Expected to find CR token file but the file does not exist: " +:+ filepath in
  let empty :=
    "Expected to read CR token from file but the file is empty: " +:+ filepath in
  let success :=
    LogDebug ("Successfully read CR token from file: " +:+ filepath) in
  (fs_present P = false -> readCrTokenFile P filepath = ([], Return ""))
  /\ (fs_present P = true ->
      (fileExistsAtPath P filepath = false ->
         readCrTokenFile P filepath = ([LogError missing], failure))
      /\ (fileExistsAtPath P filepath = true ->
          readFileSync P filepath = Return "" ->
          readCrTokenFile P filepath = ([success; LogError empty], failure))
      /\ (forall token,
            fileExistsAtPath P filepath = true ->
            readFileSync P filepath = Return token ->
            token <> "" ->
            readCrTokenFile P filepath = ([success], Return token)))
  /\ missing <> empty.
Proof.
  cbv zeta. unfold readCrTokenFile. split; [|split].
  - intros ->. reflexivity.
  - intros ->. simpl. split; [|split].
    + intros ->. reflexivity.
    + intros -> ->. reflexivity.
    + intros token -> -> Hne. destruct (String.eqb_spec token ""); [contradiction|].
      reflexivity.
  - intros H. vm_compute in H. discriminate H.
Qed.

End OnPlatform.

(** C1 fails on the code: with [IBM_CREDENTIALS_FILE] naming a path that
    does not exist, and no credentials file anywhere, nothing is logged and
    the call throws instead of returning the empty record. *)
Theorem readCredentialsFile_env_nowhere_throws :
  readCredentialsFile platform_env_nowhere
  = ([], Throw (TypeError "ERR_INVALID_ARG_TYPE: the path argument must be of type string")).
Proof. reflexivity. Qed.

(** A platform without the [fs] module, as in a browser. *)
Definition platform_without_fs : Platform :=
  {| fs_present := false;
     IBM_CREDENTIALS_FILE := None;
     cwd := "/";
     homedir := "/";
     existsSync := fun _ => false;
     lstatSync := fun _ => {| isFile := false; isSymbolicLink := false |};
     readFileSync := fun _ => Throw (Error "ENOENT: no such file or directory");
     join := fun dir name => dir +:+ "/" +:+ name;
     parse := fun _ => ∅ |}.

(** A platform with a file system and no file at all. *)
Definition platform_no_files : Platform := platform_of None (fun _ => None).

(** C7, as stated, fails twice.  Without the file system module nothing
    is thrown for an absent file.  And with it, the error thrown for an
    absent file and the one thrown for an empty file at the same path are
    the same error: their messages do not differ. *)
Lemma readCrTokenFile_same_error_counterexample :
  ~ (forall (P : Platform) (filepath : string),
       fileExistsAtPath P filepath = false ->
       exists e, snd (readCrTokenFile P filepath) = Throw e)
  /\ ~ (forall (P1 P2 : Platform) (filepath : string) (e1 e2 : error),
          fileExistsAtPath P1 filepath = false ->
          snd (readCrTokenFile P1 filepath) = Throw e1 ->
          fileExistsAtPath P2 filepath = true ->
          readFileSync P2 filepath = Return "" ->
          snd (readCrTokenFile P2 filepath) = Throw e2 ->
          e1 <> e2).
Proof.
  split; intros H.
  - destruct (H platform_without_fs "/var/run/token" eq_refl) as [e He].
    discriminate He.
  - apply (H platform_no_files sample_platform "/var/run/empty"
             (Error "Unable to retrieve the CR token value from file: /var/run/empty")
             (Error "Unable to retrieve the CR token value from file: /var/run/empty"));
      reflexivity.
Qed.

Lemma readCrTokenFile_outcomes_witness :
  readCrTokenFile sample_platform "/var/run/absent"
  = ([LogError "Expected to find CR token file but the file does not exist: /var/run/absent"],
     Throw (Error "Unable to retrieve the CR token value from file: /var/run/absent")).
Proof.
  apply (proj1 (proj1 (proj2 (readCrTokenFile_outcomes sample_platform "/var/run/absent"))
                  eq_refl)).
  reflexivity.
Defined.

Example readCrTokenFile_empty :
  readCrTokenFile sample_platform "/var/run/empty"
  = ([LogDebug "Successfully read CR token from file: /var/run/empty";
      LogError "Expected to read CR token from file but the file is empty: /var/run/empty"],
     Throw (Error "Unable to retrieve the CR token value from file: /var/run/empty")).
Proof. reflexivity. Qed.

Example readCrTokenFile_token :
  readCrTokenFile sample_platform "/var/run/token"
  = ([LogDebug "Successfully read CR token from file: /var/run/token"],
     Return "eyJhbGciOi").
Proof. reflexivity. Qed.

Example readCredentialsFile_home :
  readCredentialsFile sample_platform
  = ([], Return {[ "contents" := "MY_SERVICE_URL=https://host" ]}).
Proof. reflexivity. Qed.

End FileFacts.

(** ** Parameter validation *)

Module ValidationFacts.

Import JsString StringFacts Helper.

Lemma collect_missing_filter (params : list (string * jsval))
    (requires missing : list string) :
  collect_missing params requires missing
  = (missing ++ List.filter (fun require => isMissing (param params require)) requires)%list.
Proof.
  unfold collect_missing. revert missing.
  induction requires as [|r requires IH]; intros missing; simpl.
  - now rewrite app_nil_r.
  - rewrite IH. destruct (isMissing (param params r)); [|reflexivity].
    now rewrite <- app_assoc.
Qed.

Lemma collect_invalid_filter (params : list (string * jsval))
    (allParams invalid : list string) :
  collect_invalid params allParams invalid
  = (invalid ++ List.filter (fun key => bool_decide (key ∉ allParams))
                            (map fst params))%list.
Proof.
  unfold collect_invalid. generalize (map fst params) as keys. intros keys.
  revert invalid. induction keys as [|k keys IH]; intros invalid; simpl.
  - now rewrite app_nil_r.
  - rewrite IH.
    assert (E : negb (existsb (String.eqb k) allParams) = bool_decide (k ∉ allParams)).
    { destruct (existsb (String.eqb k) allParams) eqn:Ex; simpl; symmetry.
      - apply bool_decide_eq_false_2. intros Hnot. apply Hnot.
        apply existsb_exists in Ex as (x & Hin & Hx).
        apply String.eqb_eq in Hx as ->. now apply list_elem_of_In.
      - apply bool_decide_eq_true_2. intros Hin.
        apply list_elem_of_In in Hin.
        assert (existsb (String.eqb k) allParams = true) as Hex; [|congruence].
        apply existsb_exists. exists k. split; [exact Hin | apply String.eqb_refl]. }
    rewrite E. destruct (bool_decide (k ∉ allParams)); [|reflexivity].
    now rewrite <- app_assoc.
Qed.

(** One heading of the aggregated message: nothing for an empty list. *)
Definition heading (title : string) (names : list string) : string :=
  match names with
  | [] => ""
  | _ :: _ => newline +:+ "  " +:+ title +:+ join ", " names
  end.

(** C8: [isMissing] holds of [undefined], [null] and the empty string only
    (so not of zero, [false] or an empty collection); the missing names are
    the required names whose value is missing, the invalid names are the
    keys of the parameter object that the allowed list does not contain;
    [validateParams] returns [null] exactly when both lists are empty, and
    otherwise one error whose message gives each non-empty list under its
    own heading. *)
Theorem validateParams_spec (params : list (string * jsval))
    (requiredParams allParams : list string) :
  let missing := List.filter (fun name => isMissing (param params name)) requiredParams in
  let invalid := List.filter (fun key => bool_decide (key ∉ allParams)) (map fst params) in
  (forall v, isMissing v = true <-> v = VUndefined \/ v = VNull \/ v = VStr "")
  /\ isMissing (VNum 0) = false
  /\ isMissing (VBool false) = false
  /\ isMissing (VArr []) = false
  /\ isMissing (VObj ∅) = false
  /\ (validateParams (Some params) (Some requiredParams) (Some allParams) = None
      <-> missing = [] /\ invalid = [])
  /\ validateParams (Some params) (Some requiredParams) (Some allParams)
     = match missing, invalid with
       | [], [] => None
       | _, _ =>
           Some (Error ("Parameter validation errors:"
                        +:+ heading "Missing required parameters: " missing
                        +:+ heading "Found invalid parameters: " invalid))
       end.
Proof.
  cbv zeta.
  assert (Hrun :
    validateParams (Some params) (Some requiredParams) (Some allParams)
    = match List.filter (fun name => isMissing (param params name)) requiredParams,
            List.filter (fun key => bool_decide (key ∉ allParams)) (map fst params) with
      | [], [] => None
      | missing, invalid =>
          Some (Error ("Parameter validation errors:"
                       +:+ heading "Missing required parameters: " missing
                       +:+ heading "Found invalid parameters: " invalid))
      end).
  { unfold validateParams.
    rewrite collect_missing_filter, collect_invalid_filter. simpl.
    destruct (List.filter _ requiredParams) as [|m ms];
      destruct (List.filter _ (map fst params)) as [|k ks]; simpl;
      rewrite ?append_nil_r, ?append_assoc; reflexivity. }
  repeat split; try reflexivity.
  - destruct v as [| | | |s| | | | |]; simpl; try discriminate; auto.
    intros H. apply String.eqb_eq in H as ->. auto.
  - intros [-> | [-> | ->]]; reflexivity.
  - rewrite Hrun in H. destruct (List.filter _ requiredParams); [reflexivity|].
    discriminate H.
  - rewrite Hrun in H. destruct (List.filter _ requiredParams); [|discriminate H].
    destruct (List.filter _ (map fst params)); [reflexivity | discriminate H].
  - intros [Hm Hi]. rewrite Hrun, Hm, Hi. reflexivity.
  - rewrite Hrun.
    destruct (List.filter _ requiredParams);
      destruct (List.filter _ (map fst params)); reflexivity.
Qed.

(** The example of the design document: [b] is missing and [c] is not
    allowed. *)
Example validateParams_both :
  validateParams (Some [("a", VNum 1); ("c", VNum 2)]) (Some ["a"; "b"]) (Some ["a"; "b"])
  = Some (Error ("Parameter validation errors:"
                 +:+ newline +:+ "  Missing required parameters: b"
                 +:+ newline +:+ "  Found invalid parameters: c")).
Proof. reflexivity. Qed.

Example getMissingParams_zero_false :
  getMissingParams (Some [("a", VNum 0); ("b", VBool false)]) (Some ["a"; "b"]) = None.
Proof. reflexivity. Qed.

Example getMissingParams_all :
  getMissingParams (Some []) (Some ["a"; "b"])
  = Some (Error "Missing required parameters: a, b").
Proof. reflexivity. Qed.

End ValidationFacts.

(** ** The multipart file builder *)

Module FileBuilderFacts.

Import Helper.

(** Decides the conditionals of the goal one after the other. *)
Ltac by_cases :=
  repeat (cbn [value options filename contentType negb andb];
          match goal with
          | H : ?c = true |- context [?c] => rewrite H
          | |- context [if ?c then _ else _] => destruct c eqn:?
          end);
  cbn [value options filename contentType]; try reflexivity; try congruence.

(** The text of a file name or of a stream's path, which the interfaces
    declare as a string or a buffer; [toString] gives this text. *)
Definition text_of (v : jsval) : option string :=
  match v with
  | VStr s | VBuffer s => Some s
  | _ => None
  end.

(** A name that is a string, a buffer, or left out (any falsy value). *)
Definition textual (v : jsval) : bool :=
  match v with
  | VStr _ | VBuffer _ => true
  | _ => negb (truthy v)
  end.

(** Every name the builder may look at is textual: the parameter's file
    name, the nested file name, and the path of the data or of the nested
    value. *)
Definition named_plainly (fileParam : FileWithMetadata) : bool :=
  textual (fm_filename fileParam)
  && textual (member (member (data fileParam) "options") "filename")
  && textual (member (data fileParam) "path")
  && textual (member (member (data fileParam) "value") "path").

Lemma text_of_toString (v : jsval) (s : string) : text_of v = Some s -> toString v = s.
Proof. destruct v; try discriminate; now intros [= ->]. Qed.

Lemma textual_text_of (v : jsval) :
  textual v = true -> truthy v = true -> exists s, text_of v = Some s.
Proof.
  destruct v; cbn [textual text_of]; intros Ht Hv; eauto;
    rewrite Hv in Ht; discriminate Ht.
Qed.

Section Files.

Variable basename : string -> string.
Variable lookup : jsval -> jsval.
Variable fromBuffer : string -> jsval.

Local Abbreviation build := (buildRequestFileObject basename lookup fromBuffer).

(** X7: a nested descriptor that has an [options] object, given with a
    file name that is a non-empty string (or a buffer): its value is
    reused (a string as a buffer), the file name is the base name of the
    parameter's name, whatever the nested name is, and an explicit content
    type of the parameter goes before the nested one. *)
Lemma buildRequestFileObject_merges (fileParam : FileWithMetadata) (name : string) :
  isFileObject (data fileParam) = true ->
  truthy (member (data fileParam) "options") = true ->
  text_of (fm_filename fileParam) = Some name ->
  truthy (fm_filename fileParam) = true ->
  exists fileObj,
    buildRequestFileObject basename lookup fromBuffer fileParam = Resolved fileObj
    /\ value fileObj = match member (data fileParam) "value" with
                        | VStr s => VBuffer s
                        | v => v
                        end
    /\ filename (options fileObj) = VStr (basename name)
    /\ (truthy (fm_contentType fileParam) = true ->
        contentType (options fileObj) = fm_contentType fileParam).
Proof.
  intros Hobj Hopt Htext Hname. unfold buildRequestFileObject. rewrite Hobj, Hopt.
  eexists; split; [reflexivity|].
  cbn [value options filename contentType]. unfold js_or.
  rewrite Hname.
  split; [|split].
  - destruct (member (data fileParam) "value"); by_cases.
  - rewrite <- (text_of_toString _ _ Htext).
    destruct (member (data fileParam) "value"); by_cases.
  - intros Htype. rewrite Htype.
    destruct (member (data fileParam) "value"); by_cases.
Qed.

(** C6 fails on the code: for a nested descriptor without an [options]
    object the explicit file name and content type of the parameter are
    dropped; the name becomes the placeholder and the type is sniffed. *)
Theorem buildRequestFileObject_drops_explicit_options :
  build {| data := VObj {[ "value" := VBuffer "%PDF-1.7" ]};
           fm_filename := VStr "report.pdf";
           fm_contentType := VStr "application/pdf" |}
  = Resolved
      {| value := VBuffer "%PDF-1.7";
         options :=
           {| filename := VStr "_";
              contentType :=
                js_or (getContentType lookup fromBuffer (VBuffer "%PDF-1.7"))
                      (VStr "application/octet-stream") |} |}.
Proof. reflexivity. Qed.

(** A buffer whose type cannot be sniffed gets the placeholder name and
    the generic content type. *)
Lemma buildRequestFileObject_defaults (bytes : string) :
  fromBuffer bytes = VUndefined ->
  build {| data := VBuffer bytes; fm_filename := VUndefined; fm_contentType := VUndefined |}
  = Resolved {| value := VBuffer bytes;
                options := {| filename := VStr "_";
                              contentType := VStr "application/octet-stream" |} |}.
Proof.
  intros H. unfold buildRequestFileObject, getContentType. simpl. rewrite H. reflexivity.
Qed.

End Files.

End FileBuilderFacts.

(** ** URL templates *)

Module TemplateFacts.

Import JsString StringFacts Helper.

(** [s.includes(pat)]. *)
Definition includes (s pat : string) : bool :=
  match find_first pat s with
  | Some _ => true
  | None => false
  end.

Definition is_brace (c : ascii) : bool := Ascii.eqb c "{" || Ascii.eqb c "}".

(** A name without braces, as a placeholder name is meant to be. *)
Fixpoint brace_free (s : string) : bool :=
  match s with
  | EmptyString => true
  | String c s' => negb (is_brace c) && brace_free s'
  end.

(** A value without a dollar sign. *)
Fixpoint dollar_free (s : string) : bool :=
  match s with
  | EmptyString => true
  | String c s' => negb (Ascii.eqb c "$") && dollar_free s'
  end.

(** The substitution in the words of the design document: the first
    occurrence of the placeholder gives way to the value itself. *)
Definition substitute (s pat v : string) : string :=
  match find_first pat s with
  | Some (before, after) => before +:+ v +:+ after
  | None => s
  end.

(** The expansion in the words of the design document: for every name of
    the default map in turn, the provided value if there is one, else the
    default, is substituted for the placeholder of the name. *)
Definition expand (template : string) (defaults provided : list (string * string)) : string :=
  fold_left
    (fun url kv =>
       substitute url (placeholder (fst kv))
                  (default (snd kv) (Map_get provided (fst kv))))
    defaults template.

(** *** Searching *)

Lemma prefix_split (p s : string) :
  String.prefix p s = true -> s = p +:+ drop (String.length p) s.
Proof.
  revert s; induction p as [|a p IH]; intros s H; [reflexivity|].
  destruct s as [|b s]; simpl in H; [discriminate|].
  destruct (ascii_dec a b) as [->|]; [|discriminate].
  push_app. simpl. f_equal. now apply IH.
Qed.

Lemma prefix_append (p s : string) : String.prefix p (p +:+ s) = true.
Proof.
  induction p as [|a p IH]; [now destruct s|].
  push_app. simpl. destruct (ascii_dec a a); [exact IH | contradiction].
Qed.

Lemma find_first_nil (pat : string) :
  find_first pat "" =
  if String.prefix pat "" then Some ("", drop (String.length pat) "") else None.
Proof. reflexivity. Qed.

Lemma find_first_cons (pat : string) (c : ascii) (s : string) :
  find_first pat (String c s) =
  if String.prefix pat (String c s)
  then Some ("", drop (String.length pat) (String c s))
  else match find_first pat s with
       | Some (before, after) => Some (String c before, after)
       | None => None
       end.
Proof. reflexivity. Qed.

Lemma find_first_Some (pat s before after : string) :
  find_first pat s = Some (before, after) -> s = before +:+ pat +:+ after.
Proof.
  revert before; induction s as [|c s IH]; intros before.
  - rewrite find_first_nil. destruct (String.prefix pat "") eqn:E; [|discriminate].
    intros [= <- <-]. now apply prefix_split.
  - rewrite find_first_cons. destruct (String.prefix pat (String c s)) eqn:E.
    + intros [= <- <-]. now apply prefix_split.
    + destruct (find_first pat s) as [[b a]|]; [|discriminate].
      intros [= <- <-]. push_app. f_equal. now apply IH.
Qed.

Lemma find_first_found (pat before after : string) :
  is_Some (find_first pat (before +:+ pat +:+ after)).
Proof.
  induction before as [|c before IH]; push_app.
  - destruct (pat +:+ after) eqn:E.
    + rewrite find_first_nil, <- E, prefix_append. eauto.
    + rewrite find_first_cons, <- E, prefix_append. eauto.
  - rewrite find_first_cons. destruct (String.prefix pat _); [eauto|].
    destruct IH as [[b a] ->]. eauto.
Qed.

Lemma includes_spec (s pat : string) :
  includes s pat = true <-> exists before after, s = before +:+ pat +:+ after.
Proof.
  unfold includes. split.
  - destruct (find_first pat s) as [[b a]|] eqn:E; [|discriminate].
    intros _. exists b, a. now apply find_first_Some.
  - intros (b & a & ->). now destruct (find_first_found pat b a) as [x ->].
Qed.

(** *** Placeholders do not overlap *)

Lemma brace_free_cons (c : ascii) (s : string) :
  brace_free (String c s) = true ->
  c <> "{"%char /\ c <> "}"%char /\ brace_free s = true.
Proof.
  simpl. unfold is_brace. intros H. apply andb_prop in H as [H ?].
  apply negb_true_iff, orb_false_elim in H as [H1 H2].
  repeat split; trivial; intros ->; discriminate.
Qed.

Lemma placeholder_cons (name : string) :
  placeholder name = String "{" (name +:+ "}").
Proof. reflexivity. Qed.

(** Two names that are closed at the same place are the same name. *)
Lemma same_name (a x post v : string) :
  brace_free a = true -> brace_free x = true ->
  a +:+ "}" +:+ post = x +:+ "}" +:+ v -> a = x.
Proof.
  revert x; induction a as [|c a IH]; intros [|d x] Ha Hx H; push_app.
  - reflexivity.
  - injection H as <- _. now apply brace_free_cons in Hx as (_ & ? & _).
  - injection H as -> _. now apply brace_free_cons in Ha as (_ & ? & _).
  - injection H as <- H.
    apply brace_free_cons in Ha as (_ & _ & Ha).
    apply brace_free_cons in Hx as (_ & _ & Hx).
    f_equal. now apply IH.
Qed.

(** A placeholder that starts inside a name's text lies behind the name. *)
Lemma opens_after_name (a post u rest : string) :
  brace_free a = true ->
  a +:+ "}" +:+ post = u +:+ String "{" rest ->
  exists w, post = w +:+ String "{" rest.
Proof.
  revert u; induction a as [|c a IH]; intros [|d u] Ha H; push_app.
  - discriminate H.
  - injection H as _ H. now exists u.
  - injection H as -> _. now apply brace_free_cons in Ha as (? & _).
  - injection H as _ H. apply brace_free_cons in Ha as (_ & _ & Ha).
    now apply (IH u).
Qed.

(** A name that is closed before another placeholder opens lies in front
    of it. *)
Lemma closes_before (x pre rest v : string) :
  brace_free x = true ->
  pre +:+ String "{" rest = x +:+ "}" +:+ v ->
  exists w, pre = x +:+ "}" +:+ w.
Proof.
  revert pre; induction x as [|d x IH]; intros [|c pre] Hx H; push_app.
  - discriminate H.
  - injection H as -> _. now exists pre.
  - injection H as <- _. now apply brace_free_cons in Hx as (? & _).
  - injection H as -> H. apply brace_free_cons in Hx as (_ & _ & Hx).
    destruct (IH pre Hx H) as [w ->]. now exists w.
Qed.

Lemma placeholder_app (name rest : string) :
  placeholder name +:+ rest = String "{" (name +:+ "}" +:+ rest).
Proof. rewrite placeholder_cons. push_app. now rewrite append_assoc. Qed.

Lemma placeholders_apart (a x pre post u v : string) :
  brace_free a = true -> brace_free x = true -> a <> x ->
  pre +:+ placeholder a +:+ post = u +:+ placeholder x +:+ v ->
  (exists w, pre = u +:+ placeholder x +:+ w)
  \/ (exists w, post = w +:+ placeholder x +:+ v).
Proof.
  intros Ha Hx Hne.
  setoid_rewrite placeholder_app.
  revert u; induction pre as [|c pre IH]; intros [|d u] H.
  - rewrite !app_nil_l in H. injection H as H. now apply same_name in H.
  - rewrite app_nil_l, app_cons in H. injection H as _ H. right.
    now apply (opens_after_name a post u).
  - rewrite app_nil_l, app_cons in H. injection H as -> H. left.
    destruct (closes_before x pre _ v Hx H) as [w ->]. now exists w.
  - rewrite !app_cons in H. injection H as -> H.
    destruct (IH u H) as [[w ->] | [w ->]]; [left | right]; now exists w.
Qed.

(** *** One substitution *)

(** Replacing the placeholder of one name keeps the placeholder of any
    other name, whatever the replacement text is. *)
Lemma replace_keeps (s a x replacement : string) :
  brace_free a = true -> brace_free x = true -> a <> x ->
  includes s (placeholder x) = true ->
  includes (replace s (placeholder a) replacement) (placeholder x) = true.
Proof.
  intros Ha Hx Hne Hin. unfold replace.
  destruct (find_first (placeholder a) s) as [[pre post]|] eqn:E; [|exact Hin].
  apply find_first_Some in E. apply includes_spec in Hin as (u & v & Huv).
  rewrite E in Huv.
  apply includes_spec.
  destruct (placeholders_apart a x pre post u v Ha Hx Hne Huv) as [[w ->] | [w ->]].
  - exists u. eexists. rewrite !append_assoc. reflexivity.
  - eexists. exists v. rewrite <- !append_assoc. reflexivity.
Qed.

(** A value without a dollar sign is its own replacement text. *)
Lemma GetSubstitution_literal (matched before after v : string) :
  dollar_free v = true -> GetSubstitution matched before after v = v.
Proof.
  induction v as [|c v IH]; [reflexivity|]. simpl.
  intros H. apply andb_prop in H as [Hc Hv].
  apply negb_true_iff in Hc. rewrite Hc. f_equal. now apply IH.
Qed.

Lemma replace_literal (s pat v : string) :
  dollar_free v = true -> replace s pat v = substitute s pat v.
Proof.
  intros Hv. unfold replace, substitute.
  destruct (find_first pat s) as [[before after]|]; [|reflexivity].
  now rewrite GetSubstitution_literal.
Qed.

(** *** The whole expansion *)

(** The loop of [constructServiceUrl] over the default map. *)
Definition format (url : string) (defaults provided : list (string * string)) : string :=
  fold_left
    (fun formattedUrl kv =>
       JsString.replace formattedUrl (placeholder (fst kv))
         match Map_get provided (fst kv) with
         | Some providedValue => providedValue
         | None => snd kv
         end)
    defaults url.

Lemma constructServiceUrl_Return (template : string)
    (defaults : list (string * string)) (provided : option (list (string * string)))
    (result : string) :
  constructServiceUrl template defaults provided = Return result ->
  result = format template defaults (default [] provided).
Proof.
  unfold constructServiceUrl, format.
  destruct provided as [provided|]; simpl;
    try match goal with
        | |- context [List.find ?f ?l] => destruct (List.find f l)
        end; congruence.
Qed.

Lemma Map_get_In (m : list (string * string)) (name v : string) :
  Map_get m name = Some v -> In (name, v) m.
Proof.
  unfold Map_get. destruct (List.find _ m) as [[k w]|] eqn:E; [|discriminate].
  intros [= <-]. apply find_some in E as [Hin Hk]. simpl in Hk.
  now apply String.eqb_eq in Hk as ->.
Qed.

(** X23: with all provided names among the defaults and no dollar sign in
    any value, [constructServiceUrl] returns the expansion as the design
    document words it; a [null] map of provided values counts as empty. *)
Lemma constructServiceUrl_expand (template : string)
    (defaults : list (string * string)) (provided : option (list (string * string))) :
  forallb (fun kv => Map_has defaults (fst kv)) (default [] provided) = true ->
  forallb (fun kv => dollar_free (snd kv)) defaults = true ->
  forallb (fun kv => dollar_free (snd kv)) (default [] provided) = true ->
  constructServiceUrl template defaults provided
  = Return (expand template defaults (default [] provided)).
Proof.
  intros Hnames Hd Hp. unfold constructServiceUrl.
  replace (match provided with Some m => m | None => [] end)
    with (default [] provided) by now destruct provided.
  destruct (List.find _ (default [] provided)) as [kv|] eqn:E.
  - apply find_some in E as [Hin Hkv].
    rewrite forallb_forall in Hnames. rewrite (Hnames kv Hin) in Hkv. discriminate.
  - f_equal. unfold expand. clear E Hnames. revert template.
    induction defaults as [|[name dflt] defaults IH]; intros template; [reflexivity|].
    simpl in Hd. apply andb_prop in Hd as [Hd1 Hd2]. simpl.
    rewrite <- (IH Hd2). f_equal. apply replace_literal.
    destruct (Map_get (default [] provided) name) as [v|] eqn:G; simpl; [|exact Hd1].
    apply Map_get_In in G. rewrite forallb_forall in Hp. exact (Hp _ G).
Qed.

(** C9 fails on the code: a value that contains [$$] is not substituted
    as it is; [String.prototype.replace] reads the pair as a single
    dollar sign, while the expansion of the design document inserts the
    value itself. *)
Theorem constructServiceUrl_dollar_value :
  constructServiceUrl "https://{host}/{path}"
    [("host", "example.com"); ("path", "v1")] (Some [("path", "a$$b")])
  = Return "https://example.com/a$b"
  /\ expand "https://{host}/{path}"
       [("host", "example.com"); ("path", "v1")] [("path", "a$$b")]
     = "https://example.com/a$$b".
Proof. split; reflexivity. Qed.

(** C10 (amended): when no name of the default map contains a brace, a
    placeholder of the template whose name has no brace and is not in the
    default map is still there in the returned string. *)
Theorem constructServiceUrl_keeps_unknown (template : string)
    (defaults : list (string * string)) (provided : option (list (string * string)))
    (result name : string) :
  constructServiceUrl template defaults provided = Return result ->
  forallb (fun kv => brace_free (fst kv)) defaults = true ->
  brace_free name = true ->
  Map_has defaults name = false ->
  includes template (placeholder name) = true ->
  includes result (placeholder name) = true.
Proof.
  intros Hrun Hkeys Hname Hnot Hin.
  apply constructServiceUrl_Return in Hrun as ->. unfold format.
  revert template Hin.
  induction defaults as [|[k dflt] defaults IH]; intros template Hin; [exact Hin|].
  simpl in Hkeys, Hnot. apply andb_prop in Hkeys as [Hk Hkeys].
  apply orb_false_elim in Hnot as [Hne Hnot].
  simpl. apply (IH Hkeys Hnot). apply replace_keeps; trivial.
  now apply String.eqb_neq in Hne.
Qed.

(** C10, as stated, fails for a default map with a brace in a name: the
    placeholder of that name covers the placeholder [{x}], whose name is
    not in the map, and takes it away. *)
Lemma constructServiceUrl_brace_name_counterexample :
  ~ (forall result,
       constructServiceUrl "{x}{y}" [("x}{y", "v")] None = Return result ->
       brace_free "x" = true ->
       Map_has [("x}{y", "v")] "x" = false ->
       includes "{x}{y}" (placeholder "x") = true ->
       includes result (placeholder "x") = true).
Proof.
  intros H. specialize (H "v" eq_refl eq_refl eq_refl eq_refl). discriminate H.
Qed.

Lemma constructServiceUrl_keeps_unknown_witness :
  includes "https://example.com/{tenant}" (placeholder "tenant") = true.
Proof.
  apply (constructServiceUrl_keeps_unknown
           "https://{host}/{tenant}" [("host", "default.com")]
           (Some [("host", "example.com")]) _ "tenant");
    reflexivity.
Defined.

(** A [null] map of provided values is an empty map. *)
Lemma constructServiceUrl_null (template : string) (defaults : list (string * string)) :
  constructServiceUrl template defaults None
  = constructServiceUrl template defaults (Some []).
Proof. reflexivity. Qed.

(** The examples of the design document. *)
Example constructServiceUrl_defaults :
  constructServiceUrl "{scheme}://x.com/{ver}" [("scheme", "https"); ("ver", "v1")] None
  = Return "https://x.com/v1".
Proof. reflexivity. Qed.

Example constructServiceUrl_bogus :
  constructServiceUrl "{scheme}://x.com/{ver}" [("ver", "v1"); ("scheme", "https")]
                      (Some [("bogus", "x")])
  = Throw (Error ("'bogus' is an invalid variable name." +:+ newline
                  +:+ "      Valid variable names: [scheme,ver].")).
Proof. reflexivity. Qed.

(** Only the first occurrence of a repeated placeholder is replaced. *)
Example constructServiceUrl_repeated :
  constructServiceUrl "{a}/{a}" [("a", "x")] None = Return "x/{a}".
Proof. reflexivity. Qed.

End TemplateFacts.

(** * Further properties of the code *)

(** ** Where the credentials come from *)

Module CredentialsFacts.

Import JsString StringFacts FileReadingHelpers FileFacts.

Section OnPlatform.

Variable P : Platform.

(** Reading the chosen file and parsing it; a failure to read is passed on. *)
Definition read_and_parse (filepath : string)
  : list log_entry * completion (gmap string string) :=
  match readFileSync P filepath with
  | Return credsFile => ([], Return (parse P credsFile))
  | Throw e => ([], Throw e)
  end.

(** X1: on a platform with a file system the first match decides which
    file is read: the path of [IBM_CREDENTIALS_FILE] itself, else the
    default file name inside that path; and only when the variable is
    unset or empty, the default file in the working directory, else the
    one in the home directory, else nothing is read and the result is the
    empty record with one informational entry. *)
Theorem readCredentialsFile_first_match :
  fs_present P = true ->
  let given := default "" (IBM_CREDENTIALS_FILE P) in
  let inGiven := constructFilepath P given in
  let inWorkingDir := constructFilepath P (cwd P) in
  let inHomeDir := constructFilepath P (homedir P) in
  (given <> "" -> fileExistsAtPath P given = true ->
     readCredentialsFile P = read_and_parse given)
  /\ (given <> "" -> fileExistsAtPath P given = false ->
      fileExistsAtPath P inGiven = true ->
      readCredentialsFile P = read_and_parse inGiven)
  /\ (given = "" -> fileExistsAtPath P inWorkingDir = true ->
      readCredentialsFile P = read_and_parse inWorkingDir)
  /\ (given = "" -> fileExistsAtPath P inWorkingDir = false ->
      fileExistsAtPath P inHomeDir = true ->
      readCredentialsFile P = read_and_parse inHomeDir)
  /\ (given = "" -> fileExistsAtPath P inWorkingDir = false ->
      fileExistsAtPath P inHomeDir = false ->
      readCredentialsFile P
      = ([LogInfo "Credential file does not exist. Will not be used"], Return ∅)).
Proof.
  intros Hfs. cbv zeta.
  unfold readCredentialsFile, choose_filepath, read_and_parse. rewrite Hfs. simpl.
  repeat split.
  - intros Hne ->. destruct (String.eqb_spec (default "" (IBM_CREDENTIALS_FILE P)) "");
      [contradiction|]. simpl. now destruct (readFileSync P _).
  - intros Hne -> ->. destruct (String.eqb_spec (default "" (IBM_CREDENTIALS_FILE P)) "");
      [contradiction|]. simpl. now destruct (readFileSync P _).
  - intros -> ->. simpl. now destruct (readFileSync P _).
  - intros -> -> ->. simpl. now destruct (readFileSync P _).
  - intros -> -> ->. reflexivity.
Qed.

(** X2: given that [join] puts the file name last, [constructFilepath]
    always returns a path that ends in the default file name, and applying
    it again changes nothing. *)
Theorem constructFilepath_idempotent (filepath : string) :
  (forall dir, endsWith (join P dir defaultCredsFilename) defaultCredsFilename = true) ->
  endsWith (constructFilepath P filepath) defaultCredsFilename = true
  /\ constructFilepath P (constructFilepath P filepath) = constructFilepath P filepath.
Proof.
  intros Hjoin.
  assert (Hends : endsWith (constructFilepath P filepath) defaultCredsFilename = true).
  { unfold constructFilepath.
    destruct (endsWith filepath defaultCredsFilename) eqn:E; simpl; [exact E | apply Hjoin]. }
  split; [exact Hends|].
  unfold constructFilepath at 1. now rewrite Hends.
Qed.

(** X3: on a platform with a file system, a token that [readCrTokenFile]
    returns is never empty: it is the contents of the file at the path,
    which exists, and the only log entry is the debug entry of the read. *)
Theorem readCrTokenFile_returned_token (filepath token : string)
    (log : list log_entry) :
  fs_present P = true ->
  readCrTokenFile P filepath = (log, Return token) ->
  token <> ""
  /\ fileExistsAtPath P filepath = true
  /\ readFileSync P filepath = Return token
  /\ log = [LogDebug ("Successfully read CR token from file: " +:+ filepath)].
Proof.
  intros Hfs. unfold readCrTokenFile. rewrite Hfs. simpl.
  destruct (fileExistsAtPath P filepath); [|discriminate].
  destruct (readFileSync P filepath) as [contents|e]; [|discriminate].
  destruct (String.eqb_spec contents ""); [discriminate|].
  intros [= <- <-]. auto.
Qed.

End OnPlatform.

Lemma readCredentialsFile_first_match_witness :
  readCredentialsFile sample_platform
  = read_and_parse sample_platform "/home/user/ibm-credentials.env".
Proof.
  apply (proj1 (proj2 (proj2 (proj2
           (readCredentialsFile_first_match sample_platform eq_refl)))));
    reflexivity.
Defined.

Lemma join_ends_in_name (dir name : string) : endsWith (dir +:+ "/" +:+ name) name = true.
Proof.
  apply endsWith_spec. exists (dir +:+ "/"). now rewrite append_assoc.
Defined.

Lemma constructFilepath_idempotent_witness :
  endsWith (constructFilepath sample_platform "/etc/creds") defaultCredsFilename = true
  /\ constructFilepath sample_platform (constructFilepath sample_platform "/etc/creds")
     = constructFilepath sample_platform "/etc/creds".
Proof.
  apply (constructFilepath_idempotent sample_platform "/etc/creds").
  intros dir. apply join_ends_in_name.
Defined.

Lemma readCrTokenFile_returned_token_witness :
  "eyJhbGciOi" <> ""
  /\ fileExistsAtPath sample_platform "/var/run/token" = true
  /\ readFileSync sample_platform "/var/run/token" = Return "eyJhbGciOi"
  /\ [LogDebug "Successfully read CR token from file: /var/run/token"]
     = [LogDebug ("Successfully read CR token from file: " +:+ "/var/run/token")].
Proof.
  apply (readCrTokenFile_returned_token sample_platform "/var/run/token"
           "eyJhbGciOi" _ eq_refl).
  reflexivity.
Defined.

End CredentialsFacts.

(** ** The shape of a built file descriptor *)

Module BuilderFacts.

Import Helper FileBuilderFacts.

Section Files.

Variable basename : string -> string.
Variable lookup : jsval -> jsval.
Variable fromBuffer : string -> jsval.

Local Abbreviation build := (buildRequestFileObject basename lookup fromBuffer).

(** The descriptor before the file name and content type are settled. *)
Definition descriptor (fileParam : FileWithMetadata) : FileObject :=
  if isFileObject (data fileParam) then
    if truthy (member (data fileParam) "options") then
      {| value := member (data fileParam) "value";
         options :=
           {| filename := js_or (fm_filename fileParam)
                                (member (member (data fileParam) "options") "filename");
              contentType := js_or (fm_contentType fileParam)
                                   (member (member (data fileParam) "options") "contentType") |} |}
    else
      {| value := member (data fileParam) "value";
         options := {| filename := VUndefined; contentType := VUndefined |} |}
  else
    {| value := data fileParam;
       options := {| filename := fm_filename fileParam;
                     contentType := fm_contentType fileParam |} |}.

(** The rest of [buildRequestFileObject], from a descriptor on. *)
Definition settle (fileObj : FileObject) : FileObject :=
  let fileObj :=
    match value fileObj with
    | VStr s => {| value := VBuffer s; options := options fileObj |}
    | _ => fileObj
    end in
  let filename0 := filename (options fileObj) in
  let filename1 :=
    if negb (truthy filename0) && isFileStream (value fileObj)
    then member (value fileObj) "path"
    else filename0 in
  let fileObj :=
    {| value := value fileObj;
       options :=
         {| filename := if truthy filename1
                        then VStr (basename (toString filename1))
                        else VStr "_";
            contentType := contentType (options fileObj) |} |} in
  if negb (truthy (contentType (options fileObj))) && isFileData (value fileObj)
  then {| value := value fileObj;
          options :=
            {| filename := filename (options fileObj);
               contentType :=
                 js_or (getContentType lookup fromBuffer (value fileObj))
                       (VStr "application/octet-stream") |} |}
  else fileObj.

Lemma build_settle (fileParam : FileWithMetadata) :
  build fileParam = Resolved (settle (descriptor fileParam)).
Proof.
  unfold buildRequestFileObject, settle, descriptor.
  destruct (isFileObject (data fileParam)); [|reflexivity].
  destruct (truthy (member (data fileParam) "options")); reflexivity.
Qed.

Lemma js_or_truthy (a b : jsval) : truthy b = true -> truthy (js_or a b) = true.
Proof. intros Hb. unfold js_or. now destruct (truthy a) eqn:E. Qed.

(** The value after a string has been turned into a buffer. *)
Definition coerced (v : jsval) : jsval :=
  match v with
  | VStr s => VBuffer s
  | _ => v
  end.

(** The name the builder goes by: the file name of the descriptor, or
    the path of a stream when there is no file name. *)
Definition chosen_name (fileObj : FileObject) : jsval :=
  if negb (truthy (filename (options fileObj))) && isFileStream (coerced (value fileObj))
  then member (coerced (value fileObj)) "path"
  else filename (options fileObj).

Lemma settle_value (fileObj : FileObject) :
  value (settle fileObj) = coerced (value fileObj).
Proof.
  destruct fileObj as [v [name type]]. unfold settle, coerced.
  destruct v; cbn [value options filename contentType];
    match goal with
    | |- context [if ?c then _ else _] => destruct c
    end; reflexivity.
Qed.

Lemma settle_filename (fileObj : FileObject) :
  filename (options (settle fileObj))
  = if truthy (chosen_name fileObj)
    then VStr (basename (toString (chosen_name fileObj)))
    else VStr "_".
Proof.
  destruct fileObj as [v [name type]]. unfold settle, chosen_name, coerced.
  destruct v; cbn [value options filename contentType];
    match goal with
    | |- context [if negb (truthy type) && ?c then _ else _] =>
        destruct (negb (truthy type) && c)
    end; reflexivity.
Qed.

Lemma settle_typed (fileObj : FileObject) :
  (forall s, value (settle fileObj) <> VStr s)
  /\ (isFileData (value (settle fileObj)) = true ->
      truthy (contentType (options (settle fileObj))) = true).
Proof.
  destruct fileObj as [v [name type]]. unfold settle.
  destruct v; cbn [value options filename contentType];
    repeat match goal with
           | |- context [if ?c then _ else _] => destruct c eqn:?
           end;
    cbn [value options filename contentType];
    (split; [discriminate|]);
    intros Hdata; try discriminate Hdata;
    try (apply js_or_truthy; reflexivity);
    match goal with
    | H : negb (truthy ?t) && _ = false |- truthy ?t = true =>
        rewrite Hdata, andb_true_r in H; now apply negb_false_iff in H
    end.
Qed.

(** The chosen name is the parameter's file name, the nested file name,
    or the path of the value. *)
Lemma chosen_name_source (fileParam : FileWithMetadata) :
  truthy (chosen_name (descriptor fileParam)) = true ->
  chosen_name (descriptor fileParam) = fm_filename fileParam
  \/ chosen_name (descriptor fileParam)
     = member (member (data fileParam) "options") "filename"
  \/ chosen_name (descriptor fileParam)
     = member (coerced (value (descriptor fileParam))) "path".
Proof.
  unfold chosen_name.
  destruct (negb (truthy (filename (options (descriptor fileParam))))
            && isFileStream (coerced (value (descriptor fileParam)))); [now auto|].
  unfold descriptor.
  destruct (isFileObject (data fileParam)); [|now auto].
  destruct (truthy (member (data fileParam) "options"));
    cbn [value options filename contentType]; [|discriminate].
  unfold js_or. destruct (truthy (fm_filename fileParam)); now auto.
Qed.

Lemma chosen_name_textual (fileParam : FileWithMetadata) :
  named_plainly fileParam = true ->
  textual (chosen_name (descriptor fileParam)) = true.
Proof.
  unfold named_plainly. rewrite !andb_true_iff. intros [[[Hname Hnested] Hpath] Hinner].
  unfold chosen_name, descriptor.
  destruct (isFileObject (data fileParam));
    [destruct (truthy (member (data fileParam) "options"))|];
    cbn [value options filename contentType]; unfold js_or;
    repeat match goal with
           | |- context [if ?c then _ else _] => destruct c eqn:?
           end;
    try assumption; try reflexivity.
  all: match goal with
       | |- textual (member (coerced ?v) "path") = true =>
           destruct v; try assumption; reflexivity
       end.
Qed.

(** X4: when every name the builder may look at is a string, a buffer or
    left out, [buildRequestFileObject] resolves.  The file name of the
    descriptor it gives is the placeholder, or the base name of the text
    of the parameter's file name, of the nested file name or of the
    value's path; its value is never a string (text becomes a buffer),
    and, when the value is a buffer or a stream, its content type is not
    empty. *)
Theorem buildRequestFileObject_shape (fileParam : FileWithMetadata) :
  named_plainly fileParam = true ->
  exists fileObj,
    buildRequestFileObject basename lookup fromBuffer fileParam = Resolved fileObj
    /\ (filename (options fileObj) = VStr "_"
        \/ exists v s,
             (v = fm_filename fileParam
              \/ v = member (member (data fileParam) "options") "filename"
              \/ v = member (value fileObj) "path")
             /\ truthy v = true /\ text_of v = Some s
             /\ filename (options fileObj) = VStr (basename s))
    /\ (forall s, value fileObj <> VStr s)
    /\ (isFileData (value fileObj) = true ->
        truthy (contentType (options fileObj)) = true).
Proof.
  intros Hplain. rewrite build_settle. eexists; split; [reflexivity|].
  split; [|apply settle_typed].
  rewrite settle_filename, settle_value.
  destruct (truthy (chosen_name (descriptor fileParam))) eqn:Hchosen; [right | now left].
  destruct (textual_text_of _ (chosen_name_textual _ Hplain) Hchosen) as [s Hs].
  exists (chosen_name (descriptor fileParam)), s.
  split; [now apply chosen_name_source|].
  split; [exact Hchosen|]. split; [exact Hs|].
  now rewrite (text_of_toString _ _ Hs).
Qed.

(** X5: text given as the data is treated exactly as the buffer of that
    text. *)
Theorem buildRequestFileObject_text (s : string) (name type : jsval) :
  build {| data := VStr s; fm_filename := name; fm_contentType := type |}
  = build {| data := VBuffer s; fm_filename := name; fm_contentType := type |}.
Proof.
  rewrite !build_settle. unfold descriptor, isFileObject, js_and. simpl.
  destruct (String.eqb s "") eqn:E; simpl; rewrite ?E; reflexivity.
Qed.

(** X6: a readable stream whose path is a non-empty string or a buffer,
    given without a file name and without a content type, is named by
    the base name of its path and typed by the extension of the path, or
    as a generic byte stream when the lookup knows no type for it. *)
Theorem buildRequestFileObject_stream (path name type : jsval) (text : string) :
  text_of path = Some text -> truthy path = true ->
  truthy name = false -> truthy type = false ->
  buildRequestFileObject basename lookup fromBuffer
    {| data := VStream path; fm_filename := name; fm_contentType := type |}
  = Resolved
      {| value := VStream path;
         options :=
           {| filename := VStr (basename text);
              contentType := if truthy (lookup path) then lookup path
                             else VStr "application/octet-stream" |} |}.
Proof.
  intros Htext Hpath Hname Htype. rewrite build_settle.
  rewrite <- (text_of_toString _ _ Htext).
  unfold descriptor, settle, getContentType, isFileObject, isFileStream, isFileData, js_and.
  cbn [value options filename contentType data fm_filename fm_contentType
       member truthy isReadable isBuffer String.eqb Ascii.eqb Bool.eqb andb orb negb].
  rewrite Hname, Htype, Hpath. cbn [negb andb].
  rewrite Hpath. cbn [truthy]. unfold member, prop. rewrite lookup_singleton_eq.
  unfold js_or. cbn [default id].
  destruct (truthy (lookup path)) eqn:E; [now rewrite E | reflexivity].
Qed.

(** X8: a buffer whose type cannot be sniffed, given without a file name
    and without a content type, gets the placeholder name and the generic
    content type. *)
Theorem buildRequestFileObject_unsniffed (bytes : string) (name type : jsval) :
  truthy name = false -> truthy type = false ->
  truthy (getContentType lookup fromBuffer (VBuffer bytes)) = false ->
  buildRequestFileObject basename lookup fromBuffer
    {| data := VBuffer bytes; fm_filename := name; fm_contentType := type |}
  = Resolved {| value := VBuffer bytes;
                options := {| filename := VStr "_";
                              contentType := VStr "application/octet-stream" |} |}.
Proof.
  intros Hname Htype Hsniff. rewrite build_settle.
  unfold descriptor, settle, isFileObject, isFileStream, isFileData, js_and, js_or.
  cbn [value options filename contentType data fm_filename fm_contentType
       member truthy isReadable isBuffer andb orb negb].
  rewrite Htype, Hsniff, andb_false_r, Hname. reflexivity.
Qed.

End Files.

(** Collaborators for the examples: the part of a path behind its last
    slash is not needed for them, the lookup knows one extension. *)
Definition sample_lookup (path : jsval) : jsval :=
  match path with
  | VStr "photo.png" => VStr "image/png"
  | _ => VBool false
  end.

Lemma buildRequestFileObject_stream_witness :
  buildRequestFileObject (fun s => s) sample_lookup (fun _ => VUndefined)
    {| data := VStream (VStr "photo.png");
       fm_filename := VUndefined; fm_contentType := VUndefined |}
  = Resolved {| value := VStream (VStr "photo.png");
                options := {| filename := VStr "photo.png";
                              contentType := VStr "image/png" |} |}.
Proof.
  apply (buildRequestFileObject_stream (fun s => s) sample_lookup (fun _ => VUndefined)
           (VStr "photo.png") VUndefined VUndefined "photo.png"); reflexivity.
Defined.

Lemma buildRequestFileObject_shape_witness :
  exists fileObj,
    buildRequestFileObject (fun s => s) sample_lookup (fun _ => VUndefined)
      {| data := VStream (VBuffer "clip.wav"); fm_filename := VNull; fm_contentType := VNull |}
    = Resolved fileObj
    /\ (filename (options fileObj) = VStr "_"
        \/ exists v s,
             (v = VNull
              \/ v = VUndefined
              \/ v = member (value fileObj) "path")
             /\ truthy v = true /\ text_of v = Some s
             /\ filename (options fileObj) = VStr s)
    /\ (forall s, value fileObj <> VStr s)
    /\ (isFileData (value fileObj) = true ->
        truthy (contentType (options fileObj)) = true).
Proof.
  exact (buildRequestFileObject_shape (fun s => s) sample_lookup (fun _ => VUndefined)
           {| data := VStream (VBuffer "clip.wav"); fm_filename := VNull; fm_contentType := VNull |}
           eq_refl).
Defined.

End BuilderFacts.

(** ** The two parameter checks *)

Module ParamFacts.

Import JsString StringFacts Helper ValidationFacts.

Lemma length_zero {A : Type} (l : list A) : (length l =? 0)%nat = true <-> l = [].
Proof. destruct l; simpl; split; intros H; reflexivity || discriminate H. Qed.

(** The names that both checks report as missing. *)
Definition missing_names (params : option (list (string * jsval)))
    (requires : list string) : list string :=
  match params with
  | None => requires
  | Some params => List.filter (fun name => isMissing (param params name)) requires
  end.

(** X9: [getMissingParams] returns [null] without a list of required
    names; otherwise it reports, in their order, the required names whose
    value is missing, all of them when the parameter object itself is
    [null], and returns [null] when there is none. *)
Theorem getMissingParams_spec (params : option (list (string * jsval)))
    (requires : option (list string)) :
  getMissingParams params requires
  = match requires with
    | None => None
    | Some requires =>
        match missing_names params requires with
        | [] => None
        | missing =>
            Some (Error ("Missing required parameters: " +:+ join ", " missing))
        end
    end.
Proof.
  unfold getMissingParams, missing_names.
  destruct requires as [requires|]; [|reflexivity].
  destruct params as [params|].
  - rewrite collect_missing_filter. simpl.
    now destruct (List.filter _ requires).
  - now destruct requires.
Qed.

(** X10: a call that [validateParams] accepts is accepted by
    [getMissingParams] as well, and without a list of allowed names the
    two checks accept the same calls. *)
Theorem validateParams_getMissingParams (params : option (list (string * jsval)))
    (requires allParams : option (list string)) :
  (validateParams params requires allParams = None ->
   getMissingParams params requires = None)
  /\ (validateParams params requires None = None <->
      getMissingParams params requires = None).
Proof.
  assert (Hmissing : forall allowed,
            validateParams params requires allowed = None ->
            forall required, requires = Some required ->
            missing_names params required = []).
  { intros allowed H required ->. unfold validateParams in H.
    destruct (_ && _) eqn:E in H; [|discriminate H].
    apply andb_prop in E as [E _]. apply length_zero in E.
    unfold missing_names. destruct params as [params|]; [|exact E].
    now rewrite collect_missing_filter in E. }
  assert (Hget : forall allowed, validateParams params requires allowed = None ->
                 getMissingParams params requires = None).
  { intros allowed H. rewrite getMissingParams_spec.
    destruct requires as [required|]; [|reflexivity].
    now rewrite (Hmissing allowed H required eq_refl). }
  split; [apply Hget | split; [apply Hget|]].
  rewrite getMissingParams_spec. unfold validateParams.
  destruct requires as [required|].
  - unfold missing_names. destruct params as [params|].
    + rewrite collect_missing_filter. simpl.
      destruct (List.filter _ required); [reflexivity | discriminate].
    + destruct required; [reflexivity | discriminate].
  - now destruct params.
Qed.

Lemma validateParams_getMissingParams_witness :
  getMissingParams (Some [("a", VNum 1)]) (Some ["a"]) = None.
Proof.
  apply (proj1 (validateParams_getMissingParams
                  (Some [("a", VNum 1)]) (Some ["a"]) (Some ["a"; "b"]))).
  reflexivity.
Defined.

End ParamFacts.

(** ** More on URL templates *)

Module UrlFacts.

Import JsString StringFacts Helper TemplateFacts.

(** The provided names that have a default. *)
Definition all_known (defaults provided : list (string * string)) : bool :=
  forallb (fun kv => Map_has defaults (fst kv)) provided.

Lemma find_first_split {A : Type} (f : A -> bool) (l : list A) (x : A) :
  List.find f l = Some x ->
  exists before after,
    l = (before ++ x :: after)%list /\ f x = true /\ forallb (fun y => negb (f y)) before = true.
Proof.
  induction l as [|y l IH]; simpl; [discriminate|].
  destruct (f y) eqn:E.
  - intros [= ->]. exists [], l. auto.
  - intros H. destruct (IH H) as (before & after & -> & Hx & Hb).
    exists (y :: before), after. simpl. rewrite E. auto.
Qed.

Lemma find_none_forallb {A : Type} (f : A -> bool) (l : list A) :
  List.find f l = None <-> forallb (fun y => negb (f y)) l = true.
Proof.
  induction l as [|y l IH]; simpl; [tauto|].
  destruct (f y); simpl; [split; discriminate | exact IH].
Qed.

Lemma forallb_pointwise {A : Type} (f g : A -> bool) (l : list A) :
  (forall x, f x = g x) -> forallb f l = forallb g l.
Proof.
  intros H. induction l as [|x l IH]; simpl; [reflexivity | now rewrite H, IH].
Qed.

(** X11: [constructServiceUrl] throws exactly when a provided name has no
    default, never for a [null] map; the error names the first such name
    in the order of the provided map and lists the names of the default
    map. *)
Theorem constructServiceUrl_throws (template : string)
    (defaults : list (string * string)) (provided : option (list (string * string))) :
  (all_known defaults (default [] provided) = true ->
   exists url, constructServiceUrl template defaults provided = Return url)
  /\ (all_known defaults (default [] provided) = false ->
      exists before name v after,
        default [] provided = (before ++ (name, v) :: after)%list
        /\ all_known defaults before = true
        /\ Map_has defaults name = false
        /\ constructServiceUrl template defaults provided
           = Throw (Error (invalid_variable_message name defaults)))
  /\ exists url, constructServiceUrl template defaults None = Return url.
Proof.
  unfold constructServiceUrl, all_known.
  replace (match provided with Some m => m | None => [] end)
    with (default [] provided) by now destruct provided.
  split; [|split].
  - intros H.
    destruct (List.find _ (default [] provided)) as [kv|] eqn:E; [|eauto].
    apply find_some in E as [Hin Hkv]. rewrite forallb_forall in H.
    rewrite (H kv Hin) in Hkv. discriminate.
  - intros H.
    destruct (List.find _ (default [] provided)) as [[name v]|] eqn:E.
    + apply find_first_split in E as (before & after & -> & Hx & Hb).
      exists before, name, v, after. simpl in Hx. apply negb_true_iff in Hx.
      repeat split; trivial.
      rewrite <- Hb. apply forallb_pointwise. intros kv. now rewrite negb_involutive.
    + apply find_none_forallb in E.
      rewrite (forallb_pointwise _ (fun kv => Map_has defaults (fst kv))) in E;
        [congruence | intros kv; now rewrite negb_involutive].
  - simpl. eauto.
Qed.

(** X12: a template in which no placeholder of the default map occurs
    comes back as it is. *)
Theorem constructServiceUrl_unchanged (template : string)
    (defaults : list (string * string)) (provided : option (list (string * string)))
    (result : string) :
  constructServiceUrl template defaults provided = Return result ->
  forallb (fun kv => negb (includes template (placeholder (fst kv)))) defaults = true ->
  result = template.
Proof.
  intros Hrun Hno. apply constructServiceUrl_Return in Hrun as ->. unfold format.
  induction defaults as [|[name dflt] defaults IH]; [reflexivity|].
  simpl in Hno. apply andb_prop in Hno as [Hname Hno]. simpl.
  assert (E : replace template (placeholder name)
                match Map_get (default [] provided) name with
                | Some providedValue => providedValue
                | None => dflt
                end = template).
  { unfold replace. unfold includes in Hname.
    destruct (find_first (placeholder name) template); [discriminate | reflexivity]. }
  rewrite E. now apply IH.
Qed.

Lemma includes_cons (c : ascii) (s pat : string) :
  includes s pat = true -> includes (String c s) pat = true.
Proof.
  rewrite !includes_spec. intros (b & a & ->). now exists (String c b), a.
Qed.

(** The first occurrence of a placeholder behind a text without it is the
    one right behind the text. *)
Lemma find_first_placeholder (name before after : string) :
  brace_free name = true ->
  includes before (placeholder name) = false ->
  find_first (placeholder name) (before +:+ placeholder name +:+ after)
  = Some (before, after).
Proof.
  intros Hname. induction before as [|c before IH]; intros Hnot.
  - rewrite app_nil_l.
    destruct (placeholder name +:+ after) eqn:E; [discriminate E|].
    rewrite find_first_cons, <- E, prefix_append.
    now rewrite <- (drop_append (placeholder name) after) at 2.
  - rewrite app_cons, find_first_cons.
    destruct (String.prefix (placeholder name)
                (String c (before +:+ placeholder name +:+ after))) eqn:E.
    + exfalso. apply prefix_split in E.
      rewrite (placeholder_app name after), placeholder_app in E. injection E as -> E.
      apply closes_before in E as [w ->]; [|exact Hname].
      assert (includes (String "{" (name +:+ "}" +:+ w)) (placeholder name) = true)
        as Hin; [|congruence].
      apply includes_spec. exists "", w. now rewrite app_nil_l, placeholder_app.
    + rewrite IH; [reflexivity|].
      destruct (includes before (placeholder name)) eqn:Hin; [|reflexivity].
      now rewrite (includes_cons c _ _ Hin) in Hnot.
Qed.

(** X13: with one variable, only the first occurrence of its placeholder
    is replaced: the text in front of it and all the text behind it, later
    occurrences included, are returned as they are. *)
Theorem constructServiceUrl_first_occurrence (name v before after : string) :
  brace_free name = true ->
  dollar_free v = true ->
  includes before (placeholder name) = false ->
  constructServiceUrl (before +:+ placeholder name +:+ after) [(name, v)] None
  = Return (before +:+ v +:+ after).
Proof.
  intros Hname Hv Hnot. unfold constructServiceUrl. simpl. f_equal.
  unfold replace. rewrite find_first_placeholder by assumption.
  now rewrite GetSubstitution_literal.
Qed.

Lemma constructServiceUrl_unchanged_witness : "https://example.com/v1" = "https://example.com/v1".
Proof.
  apply (constructServiceUrl_unchanged "https://example.com/v1"
           [("scheme", "https"); ("port", "443")] (Some [("port", "8443")]));
    reflexivity.
Defined.

Lemma constructServiceUrl_first_occurrence_witness :
  constructServiceUrl ("https://" +:+ placeholder "host" +:+ "/redirect?to={host}")
                      [("host", "example.com")] None
  = Return ("https://" +:+ "example.com" +:+ "/redirect?to={host}").
Proof.
  apply (constructServiceUrl_first_occurrence "host" "example.com"); reflexivity.
Defined.

Lemma constructServiceUrl_throws_witness :
  exists before name v after,
    [("port", "8443"); ("bogus", "x"); ("worse", "y")]
    = (before ++ (name, v) :: after)%list
    /\ all_known [("scheme", "https"); ("port", "443")] before = true
    /\ Map_has [("scheme", "https"); ("port", "443")] name = false
    /\ constructServiceUrl "{scheme}://x.com:{port}" [("scheme", "https"); ("port", "443")]
         (Some [("port", "8443"); ("bogus", "x"); ("worse", "y")])
       = Throw (Error (invalid_variable_message name [("scheme", "https"); ("port", "443")])).
Proof.
  apply (proj1 (proj2 (constructServiceUrl_throws
                         "{scheme}://x.com:{port}" [("scheme", "https"); ("port", "443")]
                         (Some [("port", "8443"); ("bogus", "x"); ("worse", "y")])))).
  reflexivity.
Defined.

Lemma constructServiceUrl_expand_witness :
  constructServiceUrl "{scheme}://x.com:{port}" [("scheme", "https"); ("port", "443")]
                      (Some [("port", "8443")])
  = Return (expand "{scheme}://x.com:{port}" [("scheme", "https"); ("port", "443")]
                   [("port", "8443")]).
Proof.
  apply (constructServiceUrl_expand "{scheme}://x.com:{port}"
           [("scheme", "https"); ("port", "443")] (Some [("port", "8443")]));
    reflexivity.
Defined.

End UrlFacts.

(** ** Construction and configuration of a service *)

Module ConstructorFacts.

Import JsString StringFacts Helper BaseService ServiceFacts.

(** The options after the legacy [url] has been taken for a missing
    [serviceUrl]. *)
Definition with_legacy_url (userOptions : object) : object :=
  if truthy (prop userOptions "url") && negb (truthy (prop userOptions "serviceUrl"))
  then <["serviceUrl" := prop userOptions "url"]> userOptions
  else userOptions.

(** The options after [disableSslVerification] has been forced to a
    boolean. *)
Definition with_ssl_flag (options : object) : object :=
  match prop options "disableSslVerification" with
  | VBool true => options
  | _ => <["disableSslVerification" := VBool false]> options
  end.

Lemma with_legacy_url_other (userOptions : object) (k : string) :
  k <> "serviceUrl" -> with_legacy_url userOptions !! k = userOptions !! k.
Proof.
  intros Hk. unfold with_legacy_url. destruct (_ && _); [|reflexivity].
  now rewrite lookup_insert_ne.
Qed.

Lemma legacy_serviceUrl (userOptions : object) :
  prop (with_legacy_url userOptions) "serviceUrl"
  = if truthy (prop userOptions "url") && negb (truthy (prop userOptions "serviceUrl"))
    then prop userOptions "url"
    else prop userOptions "serviceUrl".
Proof.
  unfold with_legacy_url. destruct (_ && _); [|reflexivity].
  unfold prop at 1. now rewrite lookup_insert_eq.
Qed.

Lemma with_ssl_flag_other (options : object) (k : string) :
  k <> "disableSslVerification" -> with_ssl_flag options !! k = options !! k.
Proof.
  intros Hk. unfold with_ssl_flag.
  destruct (prop options "disableSslVerification") as [| |[]| | | | | | |];
    try reflexivity; now rewrite lookup_insert_ne.
Qed.

Lemma with_ssl_flag_value (options : object) :
  with_ssl_flag options !! "disableSslVerification"
  = Some (VBool (is_true (prop options "disableSslVerification"))).
Proof.
  unfold with_ssl_flag, prop.
  destruct (options !! "disableSslVerification") as [[| |[]| | | | | | |]|] eqn:E;
    simpl; rewrite ?lookup_insert_eq; try reflexivity. exact E.
Qed.

Section WithCollaborators.

Variable DEFAULT_SERVICE_URL : jsval.
Variable checkCredentials : object -> list string -> option error.
Variable readExternalSources : string -> option object.
Variable RequestWrapper : Type.
Variable newRequestWrapper : object -> RequestWrapper.
Variable sendRequest : RequestWrapper -> Parameters -> completion (promise jsval).
Variable authenticate : jsval -> jsval -> completion (promise jsval).

Local Abbreviation construct :=
  (constructor DEFAULT_SERVICE_URL checkCredentials newRequestWrapper).
Local Abbreviation configure := (configureService readExternalSources newRequestWrapper).
Local Abbreviation external := (readOptionsFromExternalConfig readExternalSources).
Local Abbreviation request := (createRequest sendRequest authenticate).

(** What a successful construction has done. *)
Lemma constructor_Return (userOptions : object) (log : list log_entry)
    (this : Service RequestWrapper) :
  construct userOptions = (log, Return this) ->
  let options := with_ssl_flag (with_legacy_url userOptions) in
  log = []
  /\ checkCredentials (with_legacy_url userOptions) ["serviceUrl"] = None
  /\ truthy (prop options "authenticator") = true
  /\ authenticator this = prop options "authenticator"
  /\ exists stripped : object,
       baseOptions this
       = stripped ∪ options ∪ <["serviceUrl" := DEFAULT_SERVICE_URL]> {["qs" := VObj ∅]}
       /\ ((truthy (prop (with_legacy_url userOptions) "serviceUrl") = false
            /\ stripped = ∅)
           \/ exists s, prop (with_legacy_url userOptions) "serviceUrl" = VStr s
                        /\ s <> ""
                        /\ stripped = {["serviceUrl" := VStr (stripTrailingSlash s)]}).
Proof.
  unfold constructor. fold (with_legacy_url userOptions).
  fold (with_ssl_flag (with_legacy_url userOptions)).
  set (o1 := with_legacy_url userOptions). set (o2 := with_ssl_flag o1).
  intros Hc. cbv zeta.
  destruct (truthy (prop o1 "serviceUrl")) eqn:T.
  - destruct (prop o1 "serviceUrl") as [| | | |s| | | | |] eqn:E;
      simpl in Hc; try discriminate Hc.
    revert Hc. destruct (checkCredentials o1 _); [discriminate|].
    destruct (truthy (prop o2 "authenticator")) eqn:A; [|discriminate].
    simpl. intros Hc; injection Hc as <- <-. simpl.
    repeat split; trivial. eexists; split; [reflexivity|]. right.
    exists s. repeat split; trivial. intros ->. discriminate T.
  - revert Hc. destruct (checkCredentials o1 _); [discriminate|].
    destruct (truthy (prop o2 "authenticator")) eqn:A; [|discriminate].
    simpl. intros Hc; injection Hc as <- <-. simpl.
    repeat split; trivial. eexists; split; [reflexivity|]. now left.
Qed.

Lemma stripped_other (stripped : object) (userOptions : object) (k : string) :
  ((truthy (prop (with_legacy_url userOptions) "serviceUrl") = false /\ stripped = ∅)
   \/ exists s, prop (with_legacy_url userOptions) "serviceUrl" = VStr s
                /\ s <> ""
                /\ stripped = {["serviceUrl" := VStr (stripTrailingSlash s)]}) ->
  k <> "serviceUrl" -> stripped !! k = None.
Proof.
  intros [[_ ->] | (s & _ & _ & ->)] Hk; [apply lookup_empty|].
  now apply lookup_singleton_ne.
Qed.

(** X14: a construction that succeeds has been given an authenticator,
    logs nothing, and [getAuthenticator] returns that authenticator; a
    construction without one always throws. *)
Theorem constructor_authenticator (userOptions : object) :
  (forall log this,
     construct userOptions = (log, Return this) ->
     truthy (prop userOptions "authenticator") = true
     /\ getAuthenticator this = prop userOptions "authenticator"
     /\ log = [])
  /\ (truthy (prop userOptions "authenticator") = false ->
      exists log e, construct userOptions = (log, Throw e)).
Proof.
  assert (Hauth : prop (with_ssl_flag (with_legacy_url userOptions)) "authenticator"
                  = prop userOptions "authenticator").
  { unfold prop. rewrite with_ssl_flag_other, with_legacy_url_other by discriminate.
    reflexivity. }
  split.
  - intros log this Hc. apply constructor_Return in Hc as (-> & _ & Ht & Ha & _).
    unfold getAuthenticator. rewrite Ha, <- Hauth. auto.
  - intros Hnone. destruct (construct userOptions) as [log [this|e]] eqn:Hc; [|eauto].
    apply constructor_Return in Hc as (_ & _ & Ht & _). congruence.
Qed.

(** X15: after construction [disableSslVerification] is a boolean, and it
    is [true] only if the caller gave the boolean [true]. *)
Theorem constructor_disableSslVerification (userOptions : object)
    (log : list log_entry) (this : Service RequestWrapper) :
  construct userOptions = (log, Return this) ->
  baseOptions this !! "disableSslVerification"
  = Some (VBool (is_true (prop userOptions "disableSslVerification"))).
Proof.
  intros Hc. apply constructor_Return in Hc as (_ & _ & _ & _ & stripped & -> & Hs).
  rewrite <- (assoc_L (∪)), lookup_union_r
    by (apply (stripped_other _ _ _ Hs); discriminate).
  erewrite lookup_union_Some_l by apply with_ssl_flag_value.
  unfold prop. now rewrite with_legacy_url_other by discriminate.
Qed.

(** X16: construction keeps every option of the caller other than
    [serviceUrl] and [disableSslVerification], adds nothing else but a
    default [qs], and that is the empty object unless the caller gave a
    [qs]. *)
Theorem constructor_keeps_options (userOptions : object)
    (log : list log_entry) (this : Service RequestWrapper) :
  construct userOptions = (log, Return this) ->
  (forall k, k <> "serviceUrl" -> k <> "disableSslVerification" -> k <> "qs" ->
     baseOptions this !! k = userOptions !! k)
  /\ baseOptions this !! "qs" = Some (default (VObj ∅) (userOptions !! "qs")).
Proof.
  intros Hc. apply constructor_Return in Hc as (_ & _ & _ & _ & stripped & -> & Hs).
  assert (Hk : forall k, k <> "serviceUrl" -> k <> "disableSslVerification" ->
     (stripped ∪ with_ssl_flag (with_legacy_url userOptions)
        ∪ <["serviceUrl" := DEFAULT_SERVICE_URL]> {["qs" := VObj ∅]}) !! k
     = match userOptions !! k with
       | Some v => Some v
       | None => (<["serviceUrl" := DEFAULT_SERVICE_URL]> {["qs" := VObj ∅]} : object) !! k
       end).
  { intros k H1 H2.
    rewrite <- (assoc_L (∪)), lookup_union_r by now apply (stripped_other _ _ _ Hs).
    rewrite lookup_union, with_ssl_flag_other, with_legacy_url_other by assumption.
    destruct (userOptions !! k); [|now rewrite (left_id_L None _)].
    now destruct (_ !! k). }
  split.
  - intros k H1 H2 H3. rewrite Hk by assumption.
    destruct (userOptions !! k); [reflexivity|].
    rewrite lookup_insert_ne by congruence. now apply lookup_singleton_ne.
  - rewrite Hk by discriminate. now destruct (userOptions !! "qs").
Qed.

(** X17: the [serviceUrl] stored by a successful construction is the
    stripped [serviceUrl] of the caller when that is not empty, else the
    stripped legacy [url] when that is not empty, else whatever the caller
    gave under [serviceUrl] (an empty string, [undefined]), and the
    default of the class only when the caller gave no such property. *)
Theorem constructor_serviceUrl (userOptions : object)
    (log : list log_entry) (this : Service RequestWrapper) :
  construct userOptions = (log, Return this) ->
  let given := prop userOptions "serviceUrl" in
  let legacy := prop userOptions "url" in
  (truthy given = true ->
   exists s, given = VStr s
             /\ baseOptions this !! "serviceUrl" = Some (VStr (stripTrailingSlash s)))
  /\ (truthy given = false -> truthy legacy = true ->
      exists s, legacy = VStr s
                /\ baseOptions this !! "serviceUrl" = Some (VStr (stripTrailingSlash s)))
  /\ (truthy given = false -> truthy legacy = false ->
      baseOptions this !! "serviceUrl"
      = Some (default DEFAULT_SERVICE_URL (userOptions !! "serviceUrl"))).
Proof.
  intros Hc. cbv zeta.
  apply constructor_Return in Hc as (_ & _ & _ & _ & stripped & -> & Hs).
  rewrite legacy_serviceUrl in Hs.
  assert (Hfound : forall s,
            stripped = {["serviceUrl" := VStr (stripTrailingSlash s)]} ->
            (stripped ∪ with_ssl_flag (with_legacy_url userOptions)
               ∪ <["serviceUrl" := DEFAULT_SERVICE_URL]> {["qs" := VObj ∅]})
              !! "serviceUrl" = Some (VStr (stripTrailingSlash s))).
  { intros s ->. rewrite <- (assoc_L (∪)).
    now erewrite lookup_union_Some_l by apply lookup_singleton_eq. }
  split; [|split].
  - intros Hg. rewrite Hg, andb_false_r in Hs.
    destruct Hs as [[Hf _] | (s & Hs & _ & Hst)]; [congruence|].
    exists s. auto.
  - intros Hg Hl. rewrite Hg, Hl in Hs. simpl in Hs.
    destruct Hs as [[Hf _] | (s & Hs & _ & Hst)]; [congruence|].
    exists s. auto.
  - intros Hg Hl. rewrite Hg, Hl in Hs. simpl in Hs.
    destruct Hs as [[_ ->] | (s & Hs & Hne & _)].
    + rewrite (left_id_L ∅ (∪)), lookup_union, with_ssl_flag_other by discriminate.
      unfold with_legacy_url. rewrite Hg, Hl. simpl. rewrite lookup_insert_eq.
      now destruct (userOptions !! "serviceUrl").
    + exfalso. rewrite Hs in Hg. simpl in Hg.
      destruct (String.eqb_spec s ""); [contradiction | discriminate].
Qed.

(** X18: [configureService] is idempotent: a service that it has
    configured is returned unchanged by a second call with the same name. *)
Theorem configureService_idempotent (serviceName : option string)
    (log : list log_entry) (this this' : Service RequestWrapper) :
  configure serviceName this = (log, Return this') ->
  configure serviceName this' = (log, Return this').
Proof.
  unfold configureService.
  destruct serviceName as [[|c name]|]; try discriminate.
  destruct (external (String c name)) as [results|]; [|discriminate].
  intros [= <- <-]. simpl.
  now rewrite (assoc_L (∪)), (idemp_L (∪)).
Qed.

(** X19: [createRequest] throws only when the request description is
    accepted and [authenticate] itself throws, and then it throws the same
    error; a missing service URL and every failure of the transport come
    back as a promise. *)
Theorem createRequest_throws (this : Service RequestWrapper)
    (parameters : Parameters) (e : error) :
  snd (request this parameters) = Throw e
  <-> accepted parameters = true
      /\ authenticate (authenticator this) (defaultOptions parameters) = Throw e.
Proof.
  unfold createRequest, accepted. cbv zeta.
  destruct (truthy _); destruct (is_string _); simpl;
    try (split; [discriminate | intros [[=] _]]).
  destruct (authenticate (authenticator this) (defaultOptions parameters))
    as [[requestOptions|e']|e']; simpl.
  - split; [discriminate | intros [_ [=]]].
  - split; [discriminate | intros [_ [=]]].
  - split; [intros [= ->] | intros [_ [= ->]]]; auto.
Qed.

End WithCollaborators.

(** *** Concrete constructions *)

(** Options of a caller: an authenticator, a URL with a trailing slash, a
    text where the SSL flag wants a boolean, and a header. *)
Definition sample_options : object :=
  <["authenticator" := VOpaque 1]>
  (<["serviceUrl" := VStr "https://host/api/"]>
   (<["disableSslVerification" := VStr "true"]>
    {[ "headers" := VObj {[ "X-Request-Id" := VStr "42" ]} ]})).

Definition sample_construct :=
  constructor (VStr "https://default.example.com") no_problems plain_wrapper sample_options.

Definition throwing (_ _ : jsval) : completion (promise jsval) :=
  Throw (Error "token store unavailable").

Lemma constructor_authenticator_witness :
  exists log e,
    constructor (VStr "https://default.example.com") no_problems plain_wrapper
      (delete "authenticator" sample_options) = (log, Throw e).
Proof.
  apply (proj2 (constructor_authenticator (VStr "https://default.example.com")
                  no_problems unit plain_wrapper (delete "authenticator" sample_options))).
  reflexivity.
Defined.

Lemma constructor_disableSslVerification_witness :
  exists this,
    sample_construct = ([], Return this)
    /\ baseOptions this !! "disableSslVerification" = Some (VBool false).
Proof.
  eexists. split; [reflexivity|].
  apply (constructor_disableSslVerification (VStr "https://default.example.com")
           no_problems unit plain_wrapper sample_options []).
  reflexivity.
Defined.

Lemma constructor_keeps_options_witness :
  exists this,
    sample_construct = ([], Return this)
    /\ baseOptions this !! "headers" = Some (VObj {[ "X-Request-Id" := VStr "42" ]})
    /\ baseOptions this !! "qs" = Some (VObj ∅).
Proof.
  eexists. split; [reflexivity|].
  destruct (constructor_keeps_options (VStr "https://default.example.com")
              no_problems unit plain_wrapper sample_options [] _ eq_refl)
    as [Hkeep Hqs].
  split; [apply (Hkeep "headers"); discriminate | exact Hqs].
Defined.

Lemma constructor_serviceUrl_witness :
  exists this,
    sample_construct = ([], Return this)
    /\ exists s, prop sample_options "serviceUrl" = VStr s
                 /\ baseOptions this !! "serviceUrl" = Some (VStr (stripTrailingSlash s)).
Proof.
  eexists. split; [reflexivity|].
  apply (proj1 (constructor_serviceUrl (VStr "https://default.example.com")
                  no_problems unit plain_wrapper sample_options [] _ eq_refl)).
  reflexivity.
Defined.

Lemma configureService_idempotent_witness :
  exists this',
    configureService external_full plain_wrapper (Some "my-service") sample_service
    = ([], Return this')
    /\ configureService external_full plain_wrapper (Some "my-service") this'
       = ([], Return this').
Proof.
  eexists. split; [reflexivity|].
  apply (configureService_idempotent external_full unit plain_wrapper
           (Some "my-service") [] sample_service).
  reflexivity.
Defined.

Lemma createRequest_throws_witness :
  snd (createRequest answering throwing sample_service sample_request)
  = Throw (Error "token store unavailable").
Proof.
  apply (proj2 (createRequest_throws unit answering throwing sample_service
                  sample_request (Error "token store unavailable"))).
  split; reflexivity.
Defined.

End ConstructorFacts.

(** ** Formats, header names and markup *)

Module MiscFacts.

Import JsString StringFacts Helper TemplateFacts.

(** *** [getFormat] *)

Lemma filter_head {A : Type} (f : A -> bool) (l : list A) :
  match List.filter f l with
  | x :: _ =>
      exists before after,
        l = (before ++ x :: after)%list
        /\ f x = true /\ forallb (fun y => negb (f y)) before = true
  | [] => forallb (fun y => negb (f y)) l = true
  end.
Proof.
  induction l as [|y l IH]; simpl; [reflexivity|].
  destruct (f y) eqn:E; simpl.
  - exists [], l. auto.
  - destruct (List.filter f l) as [|x rest]; [exact IH|].
    destruct IH as (before & after & -> & Hx & Hb).
    exists (y :: before), after. simpl. rewrite E. auto.
Qed.

Lemma filter_skip {A : Type} (f : A -> bool) (before rest : list A) :
  forallb (fun y => negb (f y)) before = true ->
  List.filter f (before ++ rest)%list = List.filter f rest.
Proof.
  induction before as [|y before IH]; simpl; [reflexivity|].
  intros H. apply andb_prop in H as [Hy H]. apply negb_true_iff in Hy.
  rewrite Hy. now apply IH.
Qed.

(** X20: [getFormat] returns the first of the formats that is a property
    of the parameter object, and logs nothing then; it returns [null],
    with one debug entry, exactly when none of them is. *)
Theorem getFormat_first (params : list (string * jsval)) (formats : list string) :
  (forall format,
     getFormat (Some params) (Some formats) = ([], Some format)
     <-> exists before after,
           formats = (before ++ format :: after)%list
           /\ has_property params format = true
           /\ forallb (fun f => negb (has_property params f)) before = true)
  /\ (getFormat (Some params) (Some formats)
      = ([LogDebug "No formats to parse in getFormat. Returning null"], None)
      <-> forallb (fun f => negb (has_property params f)) formats = true).
Proof.
  unfold getFormat. pose proof (filter_head (has_property params) formats) as H.
  split.
  - intros format. split.
    + destruct (List.filter _ formats) as [|x rest]; [discriminate|].
      intros [= <-]. exact H.
    + intros (before & after & -> & Hf & Hb).
      rewrite filter_skip by exact Hb. simpl. now rewrite Hf.
  - split.
    + destruct (List.filter _ formats) as [|x rest]; [intros _; exact H | discriminate].
    + intros Hall. destruct (List.filter _ formats) as [|x rest]; [reflexivity|].
      destruct H as (before & after & -> & Hx & _).
      rewrite forallb_app in Hall. apply andb_prop in Hall as [_ Hall].
      simpl in Hall. rewrite Hx in Hall. discriminate.
Qed.

(** *** [toLowerKeys] *)

Section LowerKeys.

Variable toLowerCase : string -> string.

(** The last property whose name has the given lower-case form. *)
Definition last_named (obj : list (string * jsval)) (key : string) : option jsval :=
  match List.find (fun kv => String.eqb (toLowerCase (fst kv)) key) (rev obj) with
  | Some kv => Some (snd kv)
  | None => None
  end.

Lemma find_snoc {A : Type} (f : A -> bool) (l : list A) (x : A) :
  List.find f (l ++ [x])%list
  = match List.find f l with
    | Some y => Some y
    | None => if f x then Some x else None
    end.
Proof.
  induction l as [|y l IH]; simpl; [reflexivity|]. now destruct (f y).
Qed.

Lemma fold_insert_lookup (obj : list (string * jsval)) (m : object) (key : string) :
  fold_left
    (fun acc kv =>
       if String.eqb (toLowerCase (fst kv)) "__proto__" then acc
       else <[toLowerCase (fst kv) := snd kv]> acc) obj m !! key
  = if String.eqb key "__proto__" then m !! key
    else match last_named obj key with
         | Some v => Some v
         | None => m !! key
         end.
Proof.
  unfold last_named. revert m. induction obj as [|[k v] obj IH]; intros m.
  - simpl. now destruct (String.eqb key "__proto__").
  - simpl. rewrite IH, find_snoc. simpl.
    destruct (String.eqb_spec key "__proto__") as [Heq | Hkey].
    + destruct (String.eqb_spec (toLowerCase k) "__proto__") as [_ | Hne];
        [reflexivity | apply lookup_insert_ne; congruence].
    + destruct (List.find _ (rev obj)); [reflexivity|].
      destruct (String.eqb_spec (toLowerCase k) key) as [<- | Hne].
      * destruct (String.eqb_spec (toLowerCase k) "__proto__"); [contradiction|].
        apply lookup_insert_eq.
      * destruct (String.eqb (toLowerCase k) "__proto__"); [reflexivity|].
        now apply lookup_insert_ne.
Qed.

(** X21: under a name other than [__proto__], the object that
    [toLowerKeys] returns holds the value of the last property whose name
    has that lower-case form, and nothing when no property has; so every
    name in it is a lower-case form of a name of the argument, and a later
    property wins over an earlier one that differs in case only. *)
Theorem toLowerKeys_lookup (obj : list (string * jsval)) (key : string) :
  key <> "__proto__" ->
  toLowerKeys toLowerCase (Some obj) !! key = last_named obj key
  /\ (forall v, toLowerKeys toLowerCase (Some obj) !! key = Some v ->
        exists name, In (name, v) obj /\ toLowerCase name = key)
  /\ (forall name v later,
        toLowerCase name = key ->
        (forallb (fun kv => negb (String.eqb (toLowerCase (fst kv)) key)) later = true) ->
        toLowerKeys toLowerCase (Some (obj ++ (name, v) :: later)%list) !! key = Some v).
Proof.
  intros Hkey.
  assert (Hlookup : forall o, toLowerKeys toLowerCase (Some o) !! key = last_named o key).
  { intros o. unfold toLowerKeys. rewrite fold_insert_lookup, lookup_empty.
    destruct (String.eqb_spec key "__proto__"); [contradiction|].
    now destruct (last_named o key). }
  split; [apply Hlookup | split].
  - intros v. rewrite Hlookup. unfold last_named.
    destruct (List.find _ (rev obj)) as [[name w]|] eqn:E; [|discriminate].
    intros [= <-]. apply find_some in E as [Hin Hname].
    exists name. split; [now apply in_rev | now apply String.eqb_eq in Hname].
  - intros name v later Hname Hlater. rewrite Hlookup. unfold last_named.
    rewrite rev_app_distr. simpl. rewrite <- app_assoc. simpl.
    assert (Hnone : forall l : list (string * jsval),
              forallb (fun kv => negb (String.eqb (toLowerCase (fst kv)) key)) l = true ->
              forall rest,
                List.find (fun kv => String.eqb (toLowerCase (fst kv)) key) (l ++ rest)%list
                = List.find (fun kv => String.eqb (toLowerCase (fst kv)) key) rest).
    { induction l as [|y l IH]; simpl; [reflexivity|].
      intros H rest. apply andb_prop in H as [Hy H].
      apply negb_true_iff in Hy. rewrite Hy. now apply IH. }
    rewrite Hnone.
    + simpl. now rewrite Hname, String.eqb_refl.
    + rewrite forallb_forall in *. intros kv Hin. apply Hlater. now apply in_rev.
Qed.

End LowerKeys.

(** *** [isHTML] *)

Lemma has_closing_spec (text : string) :
  has_closing text = true <-> exists middle after, text = middle +:+ ">" +:+ after.
Proof.
  induction text as [|c text IH]; simpl.
  - split; [discriminate | intros (m & a & H); destruct m; discriminate].
  - rewrite orb_true_iff, IH. split.
    + intros [Hc | (m & a & ->)].
      * apply Ascii.eqb_eq in Hc as ->. now exists "", text.
      * now exists (String c m), a.
    + intros ([|d m] & a & H); push_app; injection H as -> ->.
      * now left.
      * right. eauto.
Qed.

(** X22: [isHTML] holds exactly of a text in which a [<] is followed at
    once by a letter and, anywhere behind the letter, by a [>]; it logs
    one debug entry that quotes the text. *)
Theorem isHTML_spec (text : string) :
  fst (isHTML text)
  = [LogDebug ("Determining if the text " +:+ text +:+ " is HTML.")]
  /\ (snd (isHTML text) = true
      <-> exists before letter middle after,
            text = before +:+ "<" +:+ String letter middle +:+ ">" +:+ after
            /\ is_letter letter = true).
Proof.
  split; [reflexivity|]. simpl.
  induction text as [|c text IH]; simpl.
  - split; [discriminate | intros (b & l & m & a & H & _); destruct b; discriminate].
  - rewrite orb_true_iff, IH. split.
    + intros [H | (b & l & m & a & -> & Hl)].
      * apply andb_prop in H as [Hc H]. apply Ascii.eqb_eq in Hc as ->.
        destruct text as [|d text]; [discriminate|].
        apply andb_prop in H as [Hd H].
        apply has_closing_spec in H as (m & a & ->).
        now exists "", d, m, a.
      * now exists (String c b), l, m, a.
    + intros ([|d b] & l & m & a & H & Hl); push_app; injection H as -> ->.
      * left. rewrite Hl. simpl. apply has_closing_spec. eauto.
      * right. eauto 6.
Qed.

Lemma getFormat_first_witness :
  getFormat (Some [("text", VStr "hello"); ("html", VStr "<p>hello</p>")])
            (Some ["json"; "html"; "text"])
  = ([], Some "html").
Proof.
  apply (proj1 (getFormat_first [("text", VStr "hello"); ("html", VStr "<p>hello</p>")]
                  ["json"; "html"; "text"])).
  exists ["json"], ["text"]. repeat split; reflexivity.
Defined.

(** Lower case for the letters of ASCII. *)
Definition ascii_lower (c : ascii) : ascii :=
  let n := nat_of_ascii c in
  if ((65 <=? n) && (n <=? 90))%nat then ascii_of_nat (n + 32) else c.

Fixpoint lower (s : string) : string :=
  match s with
  | EmptyString => EmptyString
  | String c s' => String (ascii_lower c) (lower s')
  end.

Lemma toLowerKeys_lookup_witness :
  toLowerKeys lower
    (Some ([("Accept", VStr "text/plain")]
           ++ ("ACCEPT", VStr "application/json") :: [("X-Id", VNum 1)])%list)
    !! "accept"
  = Some (VStr "application/json").
Proof.
  apply (proj2 (proj2 (toLowerKeys_lookup lower
                         [("Accept", VStr "text/plain")] "accept"
                         ltac:(discriminate))));
    reflexivity.
Defined.

Lemma isHTML_spec_witness : snd (isHTML "see <b>this</b>") = true.
Proof.
  apply (proj2 (isHTML_spec "see <b>this</b>")).
  exists "see ", "b"%char, "", "this</b>". split; reflexivity.
Defined.

End MiscFacts.

(** ** Stripping, once and twice *)

Module SlashFacts.

Import JsString StringFacts StripFacts Helper.

Lemma append_slash_longer (t : string) : t +:+ "/" <> t.
Proof.
  intros H. apply (f_equal String.length) in H. rewrite length_append in H.
  simpl in H. lia.
Qed.

(** X24: [stripTrailingSlash] undoes the appending of a slash and leaves
    a string without a trailing slash as it is; a second application
    changes nothing exactly when the string did not end in two slashes. *)
Theorem stripTrailingSlash_round_trip (s : string) :
  stripTrailingSlash (s +:+ "/") = s
  /\ (endsWith s "/" = false -> stripTrailingSlash s = s)
  /\ (stripTrailingSlash (stripTrailingSlash s) = stripTrailingSlash s
      <-> endsWith s "//" = false).
Proof.
  split; [apply strip_slash | split; [apply strip_no_slash|]].
  split.
  - intros Hidem. destruct (endsWith s "//") eqn:E; [|reflexivity].
    exfalso. apply endsWith_spec in E as [t ->].
    change "//" with ("/" +:+ "/") in Hidem.
    rewrite <- append_assoc, !strip_slash in Hidem.
    symmetry in Hidem. now apply append_slash_longer in Hidem.
  - intros Hno. apply strip_no_slash. now apply strip_result.
Qed.

Lemma stripTrailingSlash_round_trip_witness :
  stripTrailingSlash "https://host/api" = "https://host/api".
Proof.
  apply (proj1 (proj2 (stripTrailingSlash_round_trip "https://host/api"))).
  reflexivity.
Defined.

End SlashFacts.

(** ** Examples of built descriptors *)

Module BuilderExamples.

Import Helper FileBuilderFacts BuilderFacts.

Lemma buildRequestFileObject_merges_witness :
  exists fileObj,
    buildRequestFileObject (fun s => s) sample_lookup (fun _ => VUndefined)
      {| data := VObj (<["value" := VStr "some data"]>
                       {[ "options" := VObj {[ "filename" := VStr "nested.txt" ]} ]});
         fm_filename := VStr "explicit.txt";
         fm_contentType := VUndefined |}
    = Resolved fileObj
    /\ value fileObj = VBuffer "some data"
    /\ filename (options fileObj) = VStr "explicit.txt".
Proof.
  destruct (buildRequestFileObject_merges (fun s => s) sample_lookup (fun _ => VUndefined)
              {| data := VObj (<["value" := VStr "some data"]>
                               {[ "options" := VObj {[ "filename" := VStr "nested.txt" ]} ]});
                 fm_filename := VStr "explicit.txt";
                 fm_contentType := VUndefined |} "explicit.txt")
    as (fileObj & Hrun & Hvalue & Hname & _); [reflexivity | reflexivity | reflexivity | reflexivity |].
  exists fileObj. split; [exact Hrun|]. split; [exact Hvalue | exact Hname].
Defined.

Lemma buildRequestFileObject_unsniffed_witness :
  buildRequestFileObject (fun s => s) sample_lookup (fun _ => VUndefined)
    {| data := VBuffer "plain bytes"; fm_filename := VStr ""; fm_contentType := VNull |}
  = Resolved {| value := VBuffer "plain bytes";
                options := {| filename := VStr "_";
                              contentType := VStr "application/octet-stream" |} |}.
Proof.
  apply (buildRequestFileObject_unsniffed (fun s => s) sample_lookup (fun _ => VUndefined)
           "plain bytes" (VStr "") VNull); reflexivity.
Defined.

End BuilderExamples.
